(** * RL-GUI telemetry core: store, packet validation, connection manager and
    flight simulator, embedded in Rocq.

    Sources: [src/store/telemetryStore.ts], [src/types/TelemetryPacket.ts],
    [src/hooks/useTelemetryWebSocket.ts] (the WebSocket hook and, after it, the
    flight simulator hook [useTelemetrySimulation]; the second simulator in that
    file, "integrate first, then decide", is the one modelled). *)

From Stdlib Require Import ZArith Reals Lra Lia List String Bool Btauto.
From Stdlib Require Floats Uint63.
Import ListNotations.
Set Warnings "-register-all".
Set Warnings "-deprecated-library-file".
Set Warnings "-notation-overridden".
Set Warnings "-ambiguous-paths".
Local Open Scope string_scope.

(* ------------------------------------------------------------------------- *)
(** ** Data model ([types/TelemetryPacket.ts]) *)

Module Types.

Inductive FlightPhase :=
| PreFlight | PoweredAscent | Burnout | Apogee | DrogueDeploy | MainDeploy | Landed.

Definition FlightPhase_eqb (a b : FlightPhase) : bool :=
  match a, b with
  | PreFlight, PreFlight | PoweredAscent, PoweredAscent | Burnout, Burnout
  | Apogee, Apogee | DrogueDeploy, DrogueDeploy | MainDeploy, MainDeploy
  | Landed, Landed => true
  | _, _ => false
  end.

(** The wire names of the phases, as in the [FlightPhase] union type. *)
Definition phase_name (p : FlightPhase) : string :=
  match p with
  | PreFlight => "pre-flight" | PoweredAscent => "powered-ascent"
  | Burnout => "burnout" | Apogee => "apogee" | DrogueDeploy => "drogue-deploy"
  | MainDeploy => "main-deploy" | Landed => "landed"
  end.

(** JS numbers of the store are modelled as real numbers. *)
Record Vector3 := mkVector3 { x : R; y : R; z : R }.
Record IMUData := mkIMUData { accel : Vector3; gyro : Vector3; mag : Vector3 }.
Record GPSData := mkGPSData { lat : R; lon : R; alt : R; heading : R }.
Record BaroData := mkBaroData { pressure : R; altitude : R }.

Record TelemetryPacket := mkTelemetryPacket {
  timestamp : R;
  imu : IMUData;
  gps : GPSData;
  baro : BaroData;
  velocity : Vector3;
  phase : FlightPhase;
  battery : R;
  rssi : R }.

Inductive LogType := info | error | warning | success.

(** [timestamp: Date] is kept as the millisecond count [Date.now()]. *)
Record LogEntry := mkLogEntry { type : LogType; message : string; log_time : Z }.

Record SessionMaxima := mkSessionMaxima {
  maxAltitude : R; maxVelocity : R; maxAcceleration : R; maxGForce : R }.

End Types.
Import Types.

(* ------------------------------------------------------------------------- *)
(** ** The store ([store/telemetryStore.ts]) *)

Module Store.

Record TelemetryState := mkTelemetryState {
  isConnected : bool;
  isSimulating : bool;
  selectedDevice : string;
  currentPacket : option TelemetryPacket;
  history : list TelemetryPacket;
  sessionMaxima : SessionMaxima;
  logs : list LogEntry;
  followLatest : bool }.

Definition HISTORY_BUFFER_SIZE : nat := 3000.
Definition LOG_BUFFER_SIZE : nat := 1000.

Definition zeroMaxima : SessionMaxima := mkSessionMaxima 0%R 0%R 0%R 0%R.

Definition initialState : TelemetryState :=
  mkTelemetryState false false EmptyString None [] zeroMaxima [] true.

(** [arr.shift()] on a non-empty array drops its first element. *)
Definition shift {A} (l : list A) : list A := tl l.

(** [addLog(log)]: append, then drop the oldest entry beyond 1000. *)
Definition addLog (log : LogEntry) (s : TelemetryState) : TelemetryState :=
  let newLogs := app (logs s) [log] in
  let newLogs := if Nat.ltb LOG_BUFFER_SIZE (List.length newLogs) then shift newLogs
                 else newLogs in
  mkTelemetryState (isConnected s) (isSimulating s) (selectedDevice s)
    (currentPacket s) (history s) (sessionMaxima s) newLogs (followLatest s).

(** [setConnected(connected)]; [now] is the [Date] of the log entry. *)
Definition setConnected (connected : bool) (now : Z) (s : TelemetryState)
  : TelemetryState :=
  let s1 := mkTelemetryState connected (isSimulating s) (selectedDevice s)
              (currentPacket s) (history s) (sessionMaxima s) (logs s)
              (followLatest s) in
  addLog (mkLogEntry (if connected then success else warning)
            (if connected then "Connected to telemetry source"
             else "Disconnected from telemetry source") now) s1.

Definition setSimulating (simulating : bool) (now : Z) (s : TelemetryState)
  : TelemetryState :=
  let s1 := mkTelemetryState (isConnected s) simulating (selectedDevice s)
              (currentPacket s) (history s) (sessionMaxima s) (logs s)
              (followLatest s) in
  addLog (mkLogEntry info
            (if simulating then "Started simulation mode"
             else "Stopped simulation mode") now) s1.

Definition magnitude (v : Vector3) : R :=
  sqrt (x v ^ 2 + y v ^ 2 + z v ^ 2).

(** [addTelemetryPacket(packet)]: the two [set] calls of the source are
    composed into one state update. *)
Definition addTelemetryPacket (packet : TelemetryPacket) (state : TelemetryState)
  : TelemetryState :=
  let newHistory := app (history state) [packet] in
  let newHistory := if Nat.ltb HISTORY_BUFFER_SIZE (List.length newHistory)
                    then shift newHistory else newHistory in
  let accelMagnitude := magnitude (accel (imu packet)) in
  let velocityMagnitude := magnitude (velocity packet) in
  let gForce := (accelMagnitude / 9.81)%R in
  let m := sessionMaxima state in
  let newMaxima := mkSessionMaxima
    (Rmax (maxAltitude m) (altitude (baro packet)))
    (Rmax (maxVelocity m) velocityMagnitude)
    (Rmax (maxAcceleration m) accelMagnitude)
    (Rmax (maxGForce m) gForce) in
  mkTelemetryState (isConnected state) (isSimulating state)
    (selectedDevice state) (Some packet) newHistory newMaxima (logs state)
    (followLatest state).

Definition clearHistory (s : TelemetryState) : TelemetryState :=
  mkTelemetryState (isConnected s) (isSimulating s) (selectedDevice s)
    (currentPacket s) [] zeroMaxima (logs s) (followLatest s).

(** A sequence of insertions, oldest first. *)
Definition addAll (ps : list TelemetryPacket) (s : TelemetryState) : TelemetryState :=
  fold_left (fun st p => addTelemetryPacket p st) ps s.

End Store.

(* ------------------------------------------------------------------------- *)
(** ** Inbound messages and the zod schema ([TelemetryPacketSchema]) *)

Module Validate.

(** A JS value produced by [JSON.parse]; an object is its own-key list (keys
    are distinct, as [JSON.parse] keeps the last duplicate). *)
Inductive json :=
| JNull
| JBool (b : bool)
| JNum (r : R)
| JStr (s : string)
| JArr (l : list json)
| JObj (fields : list (string * json)).

Fixpoint lookup (k : string) (fields : list (string * json)) : option json :=
  match fields with
  | [] => None
  | (k', v) :: rest => if String.eqb k k' then Some v else lookup k rest
  end.

(** The zod schema constructors the source uses; the shape of a
    [z.object] is its list of keys with their schemas. *)
Inductive schema :=
| SNum                                   (* z.number() *)
| SEnum (vals : list string)             (* z.enum([...]) *)
| SObj (sh : shape)                      (* z.object({...}), default "strip" *)
with shape :=
| SNil
| SCons (k : string) (s : schema) (rest : shape).

(** [schema.parse(value)]: [None] is a thrown [ZodError]. [z.object] accepts
    a non-array object, parses each key of its shape (a missing key is
    [undefined] and fails) and returns a new object holding exactly the keys
    of the shape, in shape order. *)
Fixpoint zparse (s : schema) (v : json) {struct s} : option json :=
  match s, v with
  | SNum, JNum r => Some (JNum r)
  | SEnum vals, JStr str =>
      if existsb (String.eqb str) vals then Some (JStr str) else None
  | SObj sh, JObj fields =>
      match zparse_shape sh fields with Some fs => Some (JObj fs) | None => None end
  | _, _ => None
  end
with zparse_shape (sh : shape) (fields : list (string * json)) {struct sh}
  : option (list (string * json)) :=
  match sh with
  | SNil => Some []
  | SCons k s' rest =>
      match lookup k fields with
      | Some v' =>
          match zparse s' v', zparse_shape rest fields with
          | Some o, Some os => Some ((k, o) :: os)
          | _, _ => None
          end
      | None => None
      end
  end.

Definition vec3 : schema := SObj (SCons "x" SNum (SCons "y" SNum (SCons "z" SNum SNil))).

Definition phase_values : list string :=
  ["pre-flight"; "powered-ascent"; "burnout"; "apogee"; "drogue-deploy";
   "main-deploy"; "landed"].

Definition TelemetryPacketSchema : schema :=
  SObj (SCons "timestamp" SNum
       (SCons "imu" (SObj (SCons "accel" vec3 (SCons "gyro" vec3 (SCons "mag" vec3 SNil))))
       (SCons "gps" (SObj (SCons "lat" SNum (SCons "lon" SNum
                          (SCons "alt" SNum (SCons "heading" SNum SNil)))))
       (SCons "baro" (SObj (SCons "pressure" SNum (SCons "altitude" SNum SNil)))
       (SCons "velocity" vec3
       (SCons "phase" (SEnum phase_values)
       (SCons "battery" SNum
       (SCons "rssi" SNum SNil)))))))).

(** Reading a nested property [v.k1.k2...]. *)
Fixpoint path_lookup (v : json) (path : list string) : option json :=
  match path with
  | [] => Some v
  | k :: rest =>
      match v with
      | JObj fields => match lookup k fields with
                       | Some w => path_lookup w rest
                       | None => None
                       end
      | _ => None
      end
  end.

Definition num_at (v : json) (path : list string) : option R :=
  match path_lookup v path with Some (JNum r) => Some r | _ => None end.

Definition phase_of_name (s : string) : option FlightPhase :=
  find (fun p => String.eqb (phase_name p) s)
    [PreFlight; PoweredAscent; Burnout; Apogee; DrogueDeploy; MainDeploy; Landed].

Definition vec_at (v : json) (k : list string) : option Vector3 :=
  match num_at v (k ++ ["x"]), num_at v (k ++ ["y"]), num_at v (k ++ ["z"]) with
  | Some a, Some b, Some c => Some (mkVector3 a b c)
  | _, _, _ => None
  end.

(** The parsed object seen through the [TelemetryPacket] type. *)
Definition packet_of_json (v : json) : option TelemetryPacket :=
  match num_at v ["timestamp"], vec_at v ["imu"; "accel"], vec_at v ["imu"; "gyro"],
        vec_at v ["imu"; "mag"] with
  | Some ts, Some ac, Some gy, Some mg =>
  match num_at v ["gps"; "lat"], num_at v ["gps"; "lon"], num_at v ["gps"; "alt"],
        num_at v ["gps"; "heading"] with
  | Some la, Some lo, Some al, Some hd =>
  match num_at v ["baro"; "pressure"], num_at v ["baro"; "altitude"],
        vec_at v ["velocity"] with
  | Some pr, Some ba, Some ve =>
  match path_lookup v ["phase"], num_at v ["battery"], num_at v ["rssi"] with
  | Some (JStr ph), Some bt, Some rs =>
      match phase_of_name ph with
      | Some p => Some (mkTelemetryPacket ts (mkIMUData ac gy mg)
                          (mkGPSData la lo al hd) (mkBaroData pr ba) ve p bt rs)
      | None => None
      end
  | _, _, _ => None
  end
  | _, _, _ => None
  end
  | _, _, _, _ => None
  end
  | _, _, _, _ => None
  end.

(** The value [TelemetryPacketSchema.parse(data)] hands to [addTelemetryPacket]. *)
Definition validate (data : json) : option json := zparse TelemetryPacketSchema data.

End Validate.

(* ------------------------------------------------------------------------- *)
(** ** The connection manager ([useTelemetryWebSocket]) *)

Module Conn.
Import Store Validate.

Inductive ReadyState := CONNECTING | OPEN | CLOSING | CLOSED.

Definition ReadyState_eqb (a b : ReadyState) : bool :=
  match a, b with
  | CONNECTING, CONNECTING | OPEN, OPEN | CLOSING, CLOSING | CLOSED, CLOSED => true
  | _, _ => false
  end.

(** The hook's refs, the sockets it created (each with its [readyState]), the
    [setTimeout] callbacks still pending, and the store it writes to. Sockets
    and timers are named by numbers drawn from [next_id]. *)
Record Hook := mkHook {
  url : string;
  enabled : bool;
  wsRef : option nat;                   (* wsRef.current *)
  sockets : list (nat * ReadyState);
  retryTimeoutRef : option nat;         (* retryTimeoutRef.current *)
  timers : list (nat * Z);              (* pending reconnect timers, with delay *)
  retryCount : nat;                     (* retryCount.current *)
  next_id : nat;
  store : TelemetryState }.

Fixpoint sock_state (id : nat) (l : list (nat * ReadyState)) : option ReadyState :=
  match l with
  | [] => None
  | (i, st) :: rest => if Nat.eqb i id then Some st else sock_state id rest
  end.

Definition set_sock (id : nat) (st : ReadyState) (l : list (nat * ReadyState))
  : list (nat * ReadyState) :=
  map (fun '(i, s) => if Nat.eqb i id then (i, st) else (i, s)) l.

Definition with_store (h : Hook) (s : TelemetryState) : Hook :=
  mkHook (url h) (enabled h) (wsRef h) (sockets h) (retryTimeoutRef h) (timers h)
    (retryCount h) (next_id h) s.

(** Decimal rendering of a non-negative integer, as in a template string. *)
Fixpoint digits (fuel : nat) (n : N) (acc : string) : string :=
  match fuel with
  | O => acc
  | S f =>
      let d := N.modulo n 10 in
      let c := String (Ascii.ascii_of_N (48 + d)) acc in
      if N.ltb n 10 then c else digits f (N.div n 10) c
  end.

Definition Z_to_string (z : Z) : string :=
  if Z.ltb z 0 then "-" ++ digits 64 (Z.to_N (- z)) EmptyString
  else digits 64 (Z.to_N z) EmptyString.

(** [Math.min(1000 * Math.pow(2, retryCount.current), 30000)]. *)
Definition retry_delay (n : nat) : Z := Z.min (1000 * 2 ^ Z.of_nat n) 30000.

Definition is_open (h : Hook) : bool :=
  match wsRef h with
  | Some id => match sock_state id (sockets h) with
               | Some OPEN => true
               | _ => false
               end
  | None => false
  end.

(** [connect()]. [ctor_ok] is whether [new WebSocket(url)] returns (it throws
    on a malformed URL); [now] is the [Date] of any log entry. *)
Definition connect (ctor_ok : bool) (now : Z) (h : Hook) : Hook :=
  if negb (enabled h) || is_open h then h
  else if ctor_ok then
    let id := next_id h in
    mkHook (url h) (enabled h) (Some id) (sockets h ++ [(id, CONNECTING)])
      (retryTimeoutRef h) (timers h) (retryCount h) (S id) (store h)
  else
    with_store h (addLog (mkLogEntry error "Failed to connect: Error" now) (store h)).

(** [ws.onopen] of socket [id]. *)
Definition onopen (id : nat) (now : Z) (h : Hook) : Hook :=
  let s := setConnected true now (store h) in
  let s := addLog (mkLogEntry success ("Connected to WebSocket: " ++ url h) now) s in
  mkHook (url h) (enabled h) (wsRef h) (set_sock id OPEN (sockets h))
    (retryTimeoutRef h) (timers h) 0 (next_id h) s.

(** [ws.onmessage]: [data] is the outcome of [JSON.parse(event.data)]
    ([None] when it throws). *)
Definition onmessage (data : option json) (now : Z) (h : Hook) : Hook :=
  match data with
  | Some d =>
      match validate d with
      | Some v =>
          match packet_of_json v with
          | Some packet => with_store h (addTelemetryPacket packet (store h))
          | None => h
          end
      | None =>
          with_store h (addLog (mkLogEntry error
                                  "Invalid telemetry packet: ZodError" now) (store h))
      end
  | None =>
      with_store h (addLog (mkLogEntry error
                              "Invalid telemetry packet: SyntaxError" now) (store h))
  end.

(** [ws.onclose] of socket [id]. *)
Definition onclose (id : nat) (now : Z) (h : Hook) : Hook :=
  let s := setConnected false now (store h) in
  let socks := set_sock id CLOSED (sockets h) in
  if enabled h && Nat.ltb (retryCount h) 5 then
    let delay := retry_delay (retryCount h) in
    let s := addLog (mkLogEntry warning
                       ("Connection lost. Retrying in " ++ Z_to_string delay ++ "ms...")
                       now) s in
    let t := next_id h in
    mkHook (url h) (enabled h) (wsRef h) socks (Some t) (timers h ++ [(t, delay)])
      (retryCount h) (S t) s
  else
    mkHook (url h) (enabled h) (wsRef h) socks (retryTimeoutRef h) (timers h)
      (retryCount h) (next_id h) s.

(** [ws.onerror]. *)
Definition onerror (now : Z) (h : Hook) : Hook :=
  with_store h (addLog (mkLogEntry error "WebSocket error: [object Event]" now)
                  (store h)).

Definition remove_timer (t : nat) (l : list (nat * Z)) : list (nat * Z) :=
  filter (fun '(i, _) => negb (Nat.eqb i t)) l.

(** The reconnect timer [t] fires: [retryCount.current++; connect();]. *)
Definition retry_fire (t : nat) (ctor_ok : bool) (now : Z) (h : Hook) : Hook :=
  let h1 := mkHook (url h) (enabled h) (wsRef h) (sockets h) (retryTimeoutRef h)
              (remove_timer t (timers h)) (S (retryCount h)) (next_id h) (store h) in
  connect ctor_ok now h1.

(** [ws.close()]: a socket not yet closed starts closing. *)
Definition close_sock (id : nat) (l : list (nat * ReadyState)) : list (nat * ReadyState) :=
  match sock_state id l with
  | Some CLOSED => l
  | _ => set_sock id CLOSING l
  end.

(** [disconnect()]. *)
Definition disconnect (now : Z) (h : Hook) : Hook :=
  let '(rt, tms) := match retryTimeoutRef h with
                    | Some t => (None, remove_timer t (timers h))
                    | None => (None, timers h)
                    end in
  let '(ws, socks) := match wsRef h with
                      | Some id => (None, close_sock id (sockets h))
                      | None => (None, sockets h)
                      end in
  mkHook (url h) (enabled h) ws socks rt tms (retryCount h) (next_id h)
    (setConnected false now (store h)).

End Conn.

(* ------------------------------------------------------------------------- *)
(** ** The flight simulator ([useTelemetrySimulation], second version) *)

Module Sim.

(** The operations on JS numbers the simulator uses. It is written once over
    this interface and instantiated with IEEE-754 doubles ([float]), which is
    what JS computes; the theorems about it hold for every instance. *)
Class Num (A : Type) := {
  nadd : A -> A -> A;
  nsub : A -> A -> A;
  nmul : A -> A -> A;
  ndiv : A -> A -> A;
  nopp : A -> A;
  nabs : A -> A;                   (* Math.abs *)
  nltb : A -> A -> bool;           (* < *)
  nleb : A -> A -> bool;           (* <= *)
  nofZ : Z -> A;                   (* an integer, e.g. a Date.now() difference *)
  nlit : Z -> positive -> A        (* the decimal literal n/d *)
}.

Section Generic.
Context {A : Type} `{Num A}.

Definition nmin (a b : A) : A := if nleb a b then a else b.   (* Math.min *)
Definition nsign (a : A) : A :=                               (* Math.sign *)
  if nltb (nlit 0 1) a then nlit 1 1 else if nltb a (nlit 0 1) then nlit (-1) 1 else a.

Definition PRE_FLIGHT_DURATION : A := nlit 20 10.
Definition BOOST_DURATION : A := nlit 16 10.
Definition NET_ACCEL : A := nlit 132 1.
Definition DROGUE_DEPLOY_ALT : A := nlit 600 1.
Definition MAIN_DEPLOY_ALT : A := nlit 150 1.
Definition DRAG_K : A := nlit 6 100000.
Definition WIND_ACCEL_X : A := nlit 3 10.
Definition WIND_ACCEL_Y : A := nlit 0 1.
Definition G : A := nlit 981 100.

(** [stateRef.current]: East, North, Up position and velocity. *)
Record VState := mkVState { x : A; y : A; z : A; vx : A; vy : A; vz : A }.

(** The hook's refs, the store flags it drives, the pending post-landing
    [setTimeout] callbacks (their delays), and the phases of the packets it
    passed to [addTelemetryPacket], oldest first. The other packet fields are
    sensor readings synthesised from the state with [Math.random] noise; no
    claim about the phase sequence depends on them. *)
Record Sim := mkSim {
  st : VState;
  flightPhase : FlightPhase;      (* flightPhaseRef.current *)
  apogeeReached : bool;           (* apogeeReachedRef.current *)
  landed : bool;                  (* landedRef.current *)
  t0 : Z;                         (* t0Ref.current, 0 when unset *)
  lastTick : Z;                   (* lastTickRef.current *)
  interval : bool;                (* intervalRef.current <> null *)
  isSimulating : bool;
  isConnected : bool;
  grace : list Z;
  emitted : list FlightPhase }.

Definition drag_h (v : A) : A :=
  nmul (nmul (nmul (nopp (nsign v)) DRAG_K) (nlit 5 10)) (nmul (nabs v) (nabs v)).

(** The accelerations [(ax, ay, az)] of the previous phase, and the state as
    the [landed] branch leaves it. *)
Definition accelerations (phase : FlightPhase) (s : VState) : A * A * A * VState :=
  let az := nopp G in
  let ax := WIND_ACCEL_X in
  let ay := WIND_ACCEL_Y in
  match phase with
  | PoweredAscent =>
      (nmul ax (nlit 1 10), nmul ay (nlit 1 10), nadd az NET_ACCEL, s)
  | Burnout | Apogee =>
      let vzAbs := nabs (vz s) in
      (nadd ax (drag_h (vx s)), nadd ay (drag_h (vy s)),
       nadd az (nmul (nmul (nopp (nsign (vz s))) DRAG_K) (nmul vzAbs vzAbs)), s)
  | DrogueDeploy =>
      let targetVz := nopp (nlit 40 1) in
      (nadd ax (drag_h (vx s)), nadd ay (drag_h (vy s)),
       nadd az (nmul (nsub targetVz (vz s)) (nlit 5 10)), s)
  | MainDeploy =>
      let targetVz := nopp (nlit 7 1) in
      (nadd ax (drag_h (vx s)), nadd ay (drag_h (vy s)),
       nadd az (nmul (nsub targetVz (vz s)) (nlit 9 10)), s)
  | Landed =>
      let zero := nlit 0 1 in
      (zero, zero, zero, mkVState (x s) (y s) zero zero zero zero)
  | PreFlight => (ax, ay, az, s)
  end.

(** Semi-implicit Euler step and ground clamp. *)
Definition integrate (ax ay az dt : A) (s : VState) : VState :=
  let vx' := nadd (vx s) (nmul ax dt) in
  let vy' := nadd (vy s) (nmul ay dt) in
  let vz' := nadd (vz s) (nmul az dt) in
  let x' := nadd (x s) (nmul vx' dt) in
  let y' := nadd (y s) (nmul vy' dt) in
  let z' := nadd (z s) (nmul vz' dt) in
  if nltb z' (nlit 0 1) then mkVState x' y' (nlit 0 1) vx' vy' (nlit 0 1)
  else mkVState x' y' z' vx' vy' vz'.

(** The phase decision on the updated state, with the new latch value. *)
Definition decide_phase (t : A) (apogee : bool) (s : VState) : FlightPhase * bool :=
  if nltb t PRE_FLIGHT_DURATION then (PreFlight, apogee)
  else if nltb t (nadd PRE_FLIGHT_DURATION BOOST_DURATION) then (PoweredAscent, apogee)
  else if nleb (z s) (nlit 5 1) && nltb (nabs (vz s)) (nlit 2 1) then (Landed, apogee)
  else if negb apogee && nleb (vz s) (nlit 0 1) then (Apogee, true)
  else if apogee && nltb (vz s) (nlit 0 1) then
    (if nltb DROGUE_DEPLOY_ALT (z s) then Burnout
     else if nltb MAIN_DEPLOY_ALT (z s) then DrogueDeploy
     else MainDeploy, apogee)
  else (Burnout, apogee).

(** [stepSimulation()] at time [now] ([Date.now()], in ms). *)
Definition stepSimulation (now : Z) (w : Sim) : Sim :=
  if Z.eqb (t0 w) 0 then
    mkSim (st w) (flightPhase w) (apogeeReached w) (landed w) now now (interval w)
      (isSimulating w) (isConnected w) (grace w) (emitted w)
  else
    let dt := nmin (nlit 5 100) (ndiv (nofZ (now - lastTick w)) (nofZ 1000)) in
    let t := ndiv (nofZ (now - t0 w)) (nofZ 1000) in
    let '(ax, ay, az, s0) := accelerations (flightPhase w) (st w) in
    let s := integrate ax ay az dt s0 in
    let '(phase, apogee) := decide_phase t (apogeeReached w) s in
    match phase with
    | Landed =>
        if landed w then
          mkSim s phase apogee true (t0 w) now (interval w) (isSimulating w)
            (isConnected w) (grace w) (emitted w)
        else
          mkSim s phase apogee true (t0 w) now (interval w) (isSimulating w)
            (isConnected w) (grace w ++ [2000%Z]) (emitted w ++ [phase])
    | _ =>
        mkSim s phase apogee (landed w) (t0 w) now (interval w) (isSimulating w)
          (isConnected w) (grace w) (emitted w ++ [phase])
    end.

(** The post-landing callback: [clearInterval], [setSimulating(false)],
    [setConnected(false)]. *)
Definition graceCallback (w : Sim) : Sim :=
  mkSim (st w) (flightPhase w) (apogeeReached w) (landed w) (t0 w) (lastTick w)
    false false false (tl (grace w)) (emitted w).

Definition zeroState : VState :=
  mkVState (nlit 0 1) (nlit 0 1) (nlit 0 1) (nlit 0 1) (nlit 0 1) (nlit 0 1).

(** [startSimulation()]. *)
Definition startSimulation (w : Sim) : Sim :=
  if interval w then w
  else mkSim zeroState PreFlight false false 0 0 true (isSimulating w) true
         (grace w) (emitted w).

(** The hook after the user turned simulation on: nothing emitted yet. *)
Definition session_start : Sim :=
  startSimulation
    (mkSim zeroState PreFlight false false 0 0 false true false [] []).

(** What the event loop can run: an interval tick (only while the interval
    is set) or the pending post-landing callback. *)
Inductive event := Tick (now : Z) | GraceFire.

Definition handle (w : Sim) (e : event) : Sim :=
  match e with
  | Tick now => if interval w then stepSimulation now w else w
  | GraceFire => match grace w with [] => w | _ :: _ => graceCallback w end
  end.

Definition run (evs : list event) (w : Sim) : Sim := fold_left handle evs w.

End Generic.

Arguments VState A : clear implicits.
Arguments Sim A : clear implicits.

(** JS numbers: IEEE-754 doubles. *)
Definition float_ofZ (z : Z) : PrimFloat.float :=
  if Z.ltb z 0 then PrimFloat.opp (PrimFloat.of_uint63 (Uint63.of_Z (- z)))
  else PrimFloat.of_uint63 (Uint63.of_Z z).

#[export] Instance Num_float : Num PrimFloat.float := {
  nadd := PrimFloat.add; nsub := PrimFloat.sub; nmul := PrimFloat.mul;
  ndiv := PrimFloat.div; nopp := PrimFloat.opp; nabs := PrimFloat.abs;
  nltb := PrimFloat.ltb; nleb := PrimFloat.leb;
  nofZ := float_ofZ;
  nlit n d := PrimFloat.div (float_ofZ n) (float_ofZ (Zpos d)) }.

End Sim.

(* ------------------------------------------------------------------------- *)
(** ** What the spec says of the validator (section 4.1 and the wire schema) *)

Module ValidateSpec.
Import Validate.

(** The numeric fields of the wire schema, in the order the spec lists them. *)
Definition numeric_fields : list (list string) :=
  [["timestamp"];
   ["imu"; "accel"; "x"]; ["imu"; "accel"; "y"]; ["imu"; "accel"; "z"];
   ["imu"; "gyro"; "x"]; ["imu"; "gyro"; "y"]; ["imu"; "gyro"; "z"];
   ["imu"; "mag"; "x"]; ["imu"; "mag"; "y"]; ["imu"; "mag"; "z"];
   ["gps"; "lat"]; ["gps"; "lon"]; ["gps"; "alt"]; ["gps"; "heading"];
   ["baro"; "pressure"]; ["baro"; "altitude"];
   ["velocity"; "x"]; ["velocity"; "y"]; ["velocity"; "z"];
   ["battery"]; ["rssi"]].

Definition is_num (o : option json) : bool :=
  match o with Some (JNum _) => true | _ => false end.

Definition is_phase (o : option json) : bool :=
  match o with Some (JStr str) => existsb (String.eqb str) phase_values | _ => false end.

(** "every required field present with numeric type, and [phase] one of the
    seven enum values". *)
Definition wire_ok (raw : json) : bool :=
  forallb (fun p => is_num (path_lookup raw p)) numeric_fields &&
  is_phase (path_lookup raw ["phase"]).

(** The raw value with every key outside the schema removed (at every level;
    schema keys in schema order), all other values left as they are. *)
Fixpoint project (s : schema) (v : json) {struct s} : json :=
  match s, v with
  | SObj sh, JObj fields => JObj (project_shape sh fields)
  | _, _ => v
  end
with project_shape (sh : shape) (fields : list (string * json)) {struct sh}
  : list (string * json) :=
  match sh with
  | SNil => []
  | SCons k s' rest =>
      (k, match lookup k fields with Some w => project s' w | None => JNull end)
        :: project_shape rest fields
  end.

(** The leaves of a schema (number and enum schemas) with their paths. *)
Fixpoint leaves (s : schema) : list (list string * schema) :=
  match s with
  | SObj sh => leaves_shape sh
  | _ => [([], s)]
  end
with leaves_shape (sh : shape) : list (list string * schema) :=
  match sh with
  | SNil => []
  | SCons k s' rest =>
      map (fun pl => (k :: fst pl, snd pl)) (leaves s') ++ leaves_shape rest
  end.

Fixpoint keys (sh : shape) : list string :=
  match sh with SNil => [] | SCons k _ rest => k :: keys rest end.

(** Object shapes are non-empty and have distinct keys. *)
Fixpoint wf_schema (s : schema) : bool :=
  match s with
  | SObj SNil => false
  | SObj sh => wf_shape sh
  | _ => true
  end
with wf_shape (sh : shape) : bool :=
  match sh with
  | SNil => true
  | SCons k s' rest =>
      negb (existsb (String.eqb k) (keys rest)) && wf_schema s' && wf_shape rest
  end.

Definition is_some {X} (o : option X) : bool :=
  match o with Some _ => true | None => false end.

Scheme schema_mut := Induction for schema Sort Prop
  with shape_mut := Induction for shape Sort Prop.

Definition leaf_ok (l : schema) (o : option json) : bool :=
  match o with Some w => is_some (zparse l w) | None => false end.

End ValidateSpec.

(** Concrete wire messages: a well-formed packet in the order of the
    interface, the same packet with one extra top-level key, and one whose
    phase is outside the enum. *)
Module Samples.
Import Types Validate.

Definition v0 : Vector3 := mkVector3 0 0 0.

Definition sample_packet (acc : Vector3) : TelemetryPacket :=
  mkTelemetryPacket 0 (mkIMUData acc v0 v0) (mkGPSData 0 0 0 0) (mkBaroData 0 0) v0
    PreFlight 0 0.

Definition jvec (a b c : R) : json :=
  JObj [("x", JNum a); ("y", JNum b); ("z", JNum c)].

Definition packet_fields (ph : string) : list (string * json) :=
  [("timestamp", JNum 0%R);
   ("imu", JObj [("accel", jvec 0 0 0); ("gyro", jvec 0 0 0); ("mag", jvec 0 0 0)]);
   ("gps", JObj [("lat", JNum 0%R); ("lon", JNum 0%R); ("alt", JNum 0%R);
                 ("heading", JNum 0%R)]);
   ("baro", JObj [("pressure", JNum 0%R); ("altitude", JNum 0%R)]);
   ("velocity", jvec 0 0 0);
   ("phase", JStr ph);
   ("battery", JNum 0%R);
   ("rssi", JNum 0%R)].

Definition raw_extra : json := JObj (app (packet_fields "apogee") [("foo", JNum 0%R)]).

Definition raw_bad_phase : json := JObj (packet_fields "orbit").

End Samples.

(** A connection whose every attempt closes at once: the current socket
    closes, the reconnect timer its [onclose] schedules fires, and the
    [connect()] it calls creates the next socket. [fail_rounds] lists the
    delays of the timers scheduled along the way. *)
Module ConnSession.
Import Store Conn.

Fixpoint fail_rounds (fuel : nat) (now : Z) (h : Hook) : list Z :=
  match fuel with
  | O => []
  | S f =>
      match wsRef h with
      | None => []
      | Some id =>
          let h1 := onclose id now h in
          if Nat.ltb (List.length (timers h)) (List.length (timers h1)) then
            let '(t, d) := last (timers h1) (O, 0%Z) in
            d :: fail_rounds f now (retry_fire t true now h1)
          else []
      end
  end.

(** The hook as first rendered, enabled, with its retry counter at [n]. *)
Definition hook_with_count (n : nat) : Hook :=
  mkHook "ws://localhost:8080" true None [] None [] n 0 initialState.

End ConnSession.

(** ** Phase sequences of the simulator *)

Module SimSpec.
Import Types Sim.
Local Open Scope nat_scope.



(** The [Date.now()] values of the ticks of an event sequence, and whether
    they never decrease. *)
Fixpoint tick_times (evs : list event) : list Z :=
  match evs with
  | [] => []
  | Tick now :: rest => now :: tick_times rest
  | GraceFire :: rest => tick_times rest
  end.




End SimSpec.

(* ------------------------------------------------------------------------- *)
(** ** Auxiliary definitions: buffers, phase lists and simulator invariants *)

Module ExtraDefs.
Import Types Store Sim.
Local Open Scope list_scope.

(** One [addLog]-style insertion into a buffer of capacity [cap]: append,
    then [shift()] once if the capacity is exceeded. *)
Definition push {X} (cap : nat) (l : list X) (x : X) : list X :=
  let l' := l ++ [x] in if Nat.ltb cap (List.length l') then tl l' else l'.

Section Generic.
Context {A : Type} `{Num A}.

(** [stopSimulation()]: [clearInterval] when the interval is set, then
    [setConnected(false)]. *)
Definition stopSimulation (w : Sim A) : Sim A :=
  mkSim (st w) (flightPhase w) (apogeeReached w) (landed w) (t0 w) (lastTick w)
    false (isSimulating w) false (grace w) (emitted w).

End Generic.

Definition has_apogee (l : list FlightPhase) : bool := existsb (FlightPhase_eqb Apogee) l.

(** A phase list in which apogee occurs at most once and the parachute phases
    only after it; [seen] is whether apogee has already occurred. *)
Fixpoint apogee_ok (seen : bool) (l : list FlightPhase) : bool :=
  match l with
  | [] => true
  | Apogee :: r => negb seen && apogee_ok true r
  | DrogueDeploy :: r | MainDeploy :: r => seen && apogee_ok seen r
  | _ :: r => apogee_ok seen r
  end.

Section Invariants.
Context {A : Type} `{Num A}.

(** The apogee latch is set exactly when an apogee packet has been emitted,
    and the emitted phases respect [apogee_ok]. *)
Definition LatchInv (w : Sim A) : Prop :=
  apogeeReached w = has_apogee (emitted w) /\ apogee_ok false (emitted w) = true.

(** After [n] interval ticks: before the first tick nothing has been emitted;
    after it, at most one packet per later tick. *)
Definition CountInv (n : nat) (w : Sim A) : Prop :=
  (t0 w = 0%Z -> emitted w = []) /\ (t0 w <> 0%Z -> (List.length (emitted w) + 1 <= n)%nat).



End Invariants.

End ExtraDefs.


(* ========================================================================= *)
(** * Proofs *)

Local Open Scope list_scope.

Module StoreProofs.
Import Store.

Lemma history_add (p : TelemetryPacket) (s : TelemetryState) :
  history (addTelemetryPacket p s) =
  (let h := app (history s) [p] in
   if Nat.ltb HISTORY_BUFFER_SIZE (List.length h) then tl h else h).
Proof. reflexivity. Qed.

Lemma tl_skipn {A} (k : nat) (l : list A) : tl (skipn k l) = skipn (S k) l.
Proof.
  revert l; induction k as [|k IH]; intros [|a l]; simpl; auto.
Qed.

(** After inserting [ps] into a history [h] that respects the bound, the
    history is the last (at most 3000) elements of [h ++ ps]. *)
Lemma history_addAll (ps : list TelemetryPacket) (s : TelemetryState) :
  (List.length (history s) <= 3000)%nat ->
  history (addAll ps s) =
  skipn (List.length (history s ++ ps) - 3000) (history s ++ ps).
Proof.
  revert s; induction ps as [|p ps IH]; intros s Hs.
  - simpl. rewrite app_nil_r. replace (List.length (history s) - 3000)%nat with 0%nat
      by lia. reflexivity.
  - unfold addAll; simpl fold_left. fold (addAll ps (addTelemetryPacket p s)).
    assert (Hlen : (List.length (history (addTelemetryPacket p s)) <= 3000)%nat).
    { rewrite history_add. cbv zeta.
      destruct (Nat.ltb_spec HISTORY_BUFFER_SIZE (List.length (history s ++ [p])))
        as [Hlt|Hge].
      + rewrite length_app in *. simpl in *. destruct (history s) as [|a l];
          simpl in *; [lia|]. rewrite length_app. simpl. unfold HISTORY_BUFFER_SIZE in *. lia.
      + unfold HISTORY_BUFFER_SIZE in Hge. lia. }
    rewrite (IH _ Hlen). rewrite history_add. cbv zeta.
    unfold HISTORY_BUFFER_SIZE.
    destruct (Nat.ltb_spec 3000 (List.length (history s ++ [p]))) as [Hlt|Hge].
    + rewrite length_app in Hlt; simpl in Hlt.
      assert (E3 : List.length (history s) = 3000%nat) by lia.
      destruct (history s) as [|a l]; [simpl in E3; lia|].
      simpl app at 1. simpl tl. rewrite <- app_assoc. simpl app.
      simpl in E3 |- *.
      match goal with
      | |- skipn ?k1 ?m1 = skipn ?k2 (?b :: ?m2) =>
          replace k2 with (S k1); [reflexivity|]
      end.
      rewrite !length_app in *. simpl in *. lia.
    + rewrite <- app_assoc. simpl.
      rewrite !length_app. simpl. rewrite length_app in Hge; simpl in Hge.
      f_equal; lia.
Qed.

Lemma maxima_add_le (p : TelemetryPacket) (s : TelemetryState) :
  let m := sessionMaxima s in
  let m' := sessionMaxima (addTelemetryPacket p s) in
  (maxAltitude m <= maxAltitude m')%R /\ (maxVelocity m <= maxVelocity m')%R /\
  (maxAcceleration m <= maxAcceleration m')%R /\ (maxGForce m <= maxGForce m')%R.
Proof. simpl. repeat split; apply Rmax_l. Qed.

End StoreProofs.

Module StoreClaims.
Import Types Store StoreProofs Samples.

(** C2: starting from an empty history, any sequence of insertions leaves at
    most 3000 entries, which are the latest insertions in insertion order
    (the oldest evicted first); with 3001 insertions the first remaining
    entry is the second packet inserted. *)
Theorem history_bounded_fifo (ps : list TelemetryPacket) (s0 : TelemetryState)
  (Hempty : history s0 = []) :
  let s := addAll ps s0 in
  history s = skipn (List.length ps - 3000) ps /\
  (List.length (history s) <= 3000)%nat /\
  (List.length ps = 3001%nat -> hd_error (history s) = nth_error ps 1).
Proof.
  cbv zeta.
  assert (H : history (addAll ps s0) = skipn (List.length ps - 3000) ps).
  { rewrite history_addAll by (rewrite Hempty; simpl; lia). rewrite Hempty. reflexivity. }
  rewrite H. split; [reflexivity|split].
  - rewrite length_skipn. lia.
  - intros Hl. rewrite Hl. simpl.
    destruct ps as [|a [|b rest]]; simpl in *; try discriminate. reflexivity.
Qed.

Lemma history_bounded_fifo_witness :
  history initialState = [] /\
  (List.length (history (addAll (repeat (sample_packet v0) 2) initialState)) <= 3000)%nat.
Proof.
  split; [reflexivity|].
  exact (proj1 (proj2 (history_bounded_fifo (repeat (sample_packet v0) 2) initialState
                          eq_refl))).
Defined.

(** C3: within a session every field of [sessionMaxima] is non-decreasing
    along any sequence of insertions; and a session's first packet with
    acceleration (0, 0, 9.81) gives [maxGForce = 1]. *)
Theorem maxima_monotone_gforce (p : TelemetryPacket) (s : TelemetryState)
  (Hacc : accel (imu p) = mkVector3 0 0 9.81) :
  (forall ps st,
     let m := sessionMaxima st in
     let m' := sessionMaxima (addAll ps st) in
     (maxAltitude m <= maxAltitude m')%R /\ (maxVelocity m <= maxVelocity m')%R /\
     (maxAcceleration m <= maxAcceleration m')%R /\ (maxGForce m <= maxGForce m')%R) /\
  maxGForce (sessionMaxima (addTelemetryPacket p (clearHistory s))) = 1%R.
Proof.
  split.
  - intros ps; induction ps as [|q ps IH]; intros st; cbv zeta.
    + simpl. repeat split; apply Rle_refl.
    + unfold addAll; simpl fold_left; fold (addAll ps (addTelemetryPacket q st)).
      destruct (maxima_add_le q st) as (H1 & H2 & H3 & H4).
      destruct (IH (addTelemetryPacket q st)) as (I1 & I2 & I3 & I4).
      repeat split; eapply Rle_trans; eauto.
  - assert (Hs : sqrt (0 ^ 2 + 0 ^ 2 + 9.81 ^ 2) = 9.81%R).
    { replace (0 ^ 2 + 0 ^ 2 + 9.81 ^ 2)%R with (9.81 * 9.81)%R by ring.
      apply sqrt_square; lra. }
    unfold addTelemetryPacket, clearHistory, magnitude.
    cbn [sessionMaxima maxGForce zeroMaxima]. rewrite Hacc. cbn [x y z].
    rewrite Hs. replace (9.81 / 9.81)%R with 1%R by (field; lra).
    apply Rmax_right; lra.
Qed.

Lemma maxima_monotone_gforce_witness :
  accel (imu (sample_packet (mkVector3 0 0 9.81))) = mkVector3 0 0 9.81 /\
  maxGForce (sessionMaxima (addTelemetryPacket (sample_packet (mkVector3 0 0 9.81))
                              (clearHistory initialState))) = 1%R.
Proof.
  split; [reflexivity|].
  exact (proj2 (maxima_monotone_gforce (sample_packet (mkVector3 0 0 9.81)) initialState
                  eq_refl)).
Defined.

(** C7: [clearHistory()] empties the history and zeroes the four maxima;
    every other field, [logs] and [currentPacket] among them, is unchanged. *)
Theorem clearHistory_frame (s : TelemetryState) :
  let s' := clearHistory s in
  history s' = [] /\ sessionMaxima s' = mkSessionMaxima 0 0 0 0 /\
  logs s' = logs s /\ currentPacket s' = currentPacket s /\
  isConnected s' = isConnected s /\ isSimulating s' = isSimulating s /\
  selectedDevice s' = selectedDevice s /\ followLatest s' = followLatest s.
Proof. repeat split. Qed.

(** C10: [maxAltitude] becomes the maximum of its previous value and the
    packet's barometric altitude; the GPS altitude has no influence on the
    maxima. *)
Theorem maxAltitude_baro (p : TelemetryPacket) (s : TelemetryState) :
  maxAltitude (sessionMaxima (addTelemetryPacket p s)) =
    Rmax (maxAltitude (sessionMaxima s)) (altitude (baro p)) /\
  (forall alt' : R,
     let g := gps p in
     let p' := mkTelemetryPacket (timestamp p) (imu p)
                 (mkGPSData (lat g) (lon g) alt' (heading g)) (baro p)
                 (velocity p) (phase p) (battery p) (rssi p) in
     sessionMaxima (addTelemetryPacket p' s) = sessionMaxima (addTelemetryPacket p s)).
Proof. split; reflexivity. Qed.

End StoreClaims.

Module ValidateProofs.
Import Validate ValidateSpec.

Lemma forallb_false_all {X} (f : X -> bool) (l : list X) :
  l <> [] -> (forall a, In a l -> f a = false) -> forallb f l = false.
Proof.
  destruct l as [|a l]; [congruence|]. intros _ H. simpl.
  rewrite (H a (or_introl eq_refl)). reflexivity.
Qed.

Lemma forallb_map' {X Y} (f : Y -> bool) (g : X -> Y) (l : list X) :
  forallb f (map g l) = forallb (fun a => f (g a)) l.
Proof. induction l as [|a l IH]; simpl; [reflexivity|]. now rewrite IH. Qed.

Lemma leaves_nonempty :
  (forall s, wf_schema s = true -> leaves s <> []) /\
  (forall sh, wf_shape sh = true -> sh <> SNil -> leaves_shape sh <> []).
Proof.
  set (P := fun s => wf_schema s = true -> leaves s <> []).
  set (P0 := fun sh => wf_shape sh = true -> sh <> SNil -> leaves_shape sh <> []).
  assert (Hnum : P SNum) by (intros _; discriminate).
  assert (Henum : forall vals, P (SEnum vals)) by (intros vals _; discriminate).
  assert (Hobj : forall sh, P0 sh -> P (SObj sh)).
  { intros sh IH Hwf. destruct sh as [|k s' rest]; [discriminate|].
    apply IH; [exact Hwf|discriminate]. }
  assert (Hnil : P0 SNil) by (intros _ H; congruence).
  assert (Hcons : forall k s', P s' -> forall rest, P0 rest -> P0 (SCons k s' rest)).
  { intros k s' IHs rest IHr Hwf _. simpl in Hwf.
    apply andb_prop in Hwf as [Hwf Hr]. apply andb_prop in Hwf as [_ Hs].
    specialize (IHs Hs). simpl. destruct (leaves s') as [|pl l]; [congruence|].
    simpl. discriminate. }
  split.
  - apply (schema_mut P P0 Hnum Henum Hobj Hnil Hcons).
  - apply (shape_mut P P0 Hnum Henum Hobj Hnil Hcons).
Qed.

Lemma leaves_shape_paths (sh : shape) :
  forall pl, In pl (leaves_shape sh) -> exists k p, fst pl = k :: p /\ In k (keys sh).
Proof.
  induction sh as [|k s' rest IH]; simpl; [tauto|].
  intros pl Hin. apply in_app_or in Hin as [Hin|Hin].
  - apply in_map_iff in Hin as (pl' & <- & _). simpl. eauto.
  - destruct (IH pl Hin) as (k' & p & E & Hk). eauto.
Qed.

(** A zod parse succeeds exactly when every leaf of the schema, read at its
    path, is accepted. *)
Lemma zparse_leaves :
  (forall s, wf_schema s = true -> forall v,
     is_some (zparse s v) =
     forallb (fun pl => leaf_ok (snd pl) (path_lookup v (fst pl))) (leaves s)) /\
  (forall sh, wf_shape sh = true -> forall fields,
     is_some (zparse_shape sh fields) =
     forallb (fun pl => leaf_ok (snd pl) (path_lookup (JObj fields) (fst pl)))
       (leaves_shape sh)).
Proof.
  set (P := fun s => wf_schema s = true -> forall v,
     is_some (zparse s v) =
     forallb (fun pl => leaf_ok (snd pl) (path_lookup v (fst pl))) (leaves s)).
  set (P0 := fun sh => wf_shape sh = true -> forall fields,
     is_some (zparse_shape sh fields) =
     forallb (fun pl => leaf_ok (snd pl) (path_lookup (JObj fields) (fst pl)))
       (leaves_shape sh)).
  assert (Hnum : P SNum).
  { intros _ v. simpl. destruct v; reflexivity. }
  assert (Henum : forall vals, P (SEnum vals)).
  { intros vals _ v. simpl. destruct v; try reflexivity.
    destruct (existsb _ vals); reflexivity. }
  assert (Hobj : forall sh, P0 sh -> P (SObj sh)).
  { intros sh IH Hwf v.
    assert (Hsh : sh <> SNil) by (destruct sh; [discriminate|congruence]).
    assert (Hwfs : wf_shape sh = true) by (destruct sh; [discriminate|exact Hwf]).
    destruct v as [| | | | |fields];
      try (simpl leaves; symmetry; apply forallb_false_all;
           [apply (proj2 leaves_nonempty); assumption
           |intros pl Hin; destruct (leaves_shape_paths sh pl Hin) as (k & p & -> & _);
            reflexivity]).
    cbn [zparse leaves]. rewrite <- (IH Hwfs fields).
    destruct (zparse_shape sh fields); reflexivity. }
  assert (Hnil : P0 SNil).
  { intros _ fields. reflexivity. }
  assert (Hcons : forall k s', P s' -> forall rest, P0 rest -> P0 (SCons k s' rest)).
  { intros k s' IHs rest IHr Hwf fields.
    simpl in Hwf. apply andb_prop in Hwf as [Hwf Hr]. apply andb_prop in Hwf as [_ Hs].
    simpl zparse_shape. simpl leaves_shape.
    rewrite forallb_app, forallb_map'. simpl fst; simpl snd.
    simpl path_lookup.
    destruct (lookup k fields) as [w|].
    - rewrite <- (IHs Hs w), <- (IHr Hr fields).
      destruct (zparse s' w), (zparse_shape rest fields); reflexivity.
    - rewrite forallb_false_all; [reflexivity| |].
      + apply (proj1 leaves_nonempty); assumption.
      + intros pl _. reflexivity. }
  split.
  - apply (schema_mut P P0 Hnum Henum Hobj Hnil Hcons).
  - apply (shape_mut P P0 Hnum Henum Hobj Hnil Hcons).
Qed.

(** A successful zod parse returns the projection of its input on the schema. *)
Lemma zparse_project :
  (forall s v out, zparse s v = Some out -> out = project s v) /\
  (forall sh fields outs, zparse_shape sh fields = Some outs ->
     outs = project_shape sh fields).
Proof.
  set (P := fun s => forall v out, zparse s v = Some out -> out = project s v).
  set (P0 := fun sh => forall fields outs, zparse_shape sh fields = Some outs ->
     outs = project_shape sh fields).
  assert (Hnum : P SNum).
  { intros v out H. destruct v; simpl in H; try discriminate.
    injection H as <-. reflexivity. }
  assert (Henum : forall vals, P (SEnum vals)).
  { intros vals v out H. destruct v; simpl in H; try discriminate.
    destruct (existsb _ vals); [|discriminate]. injection H as <-. reflexivity. }
  assert (Hobj : forall sh, P0 sh -> P (SObj sh)).
  { intros sh IH v out H. destruct v; simpl in H; try discriminate.
    destruct (zparse_shape sh fields) as [fs|] eqn:E; [|discriminate].
    injection H as <-. simpl. f_equal. apply IH. exact E. }
  assert (Hnil : P0 SNil).
  { intros fields outs H. simpl in H. injection H as <-. reflexivity. }
  assert (Hcons : forall k s', P s' -> forall rest, P0 rest -> P0 (SCons k s' rest)).
  { intros k s' IHs rest IHr fields outs H. simpl in H |- *.
    destruct (lookup k fields) as [w|]; [|discriminate].
    destruct (zparse s' w) as [o|] eqn:E1; [|discriminate].
    destruct (zparse_shape rest fields) as [os|] eqn:E2; [|discriminate].
    injection H as <-. f_equal; [f_equal; apply IHs; exact E1|apply IHr; exact E2]. }
  split.
  - apply (schema_mut P P0 Hnum Henum Hobj Hnil Hcons).
  - apply (shape_mut P P0 Hnum Henum Hobj Hnil Hcons).
Qed.

Lemma existsb_eqb_false (k : string) (l : list string) :
  existsb (String.eqb k) l = false -> forall k', In k' l -> k' <> k.
Proof.
  intros H k' Hin ->. assert (existsb (String.eqb k) l = true) by
    (apply existsb_exists; exists k; split; [exact Hin|apply String.eqb_refl]).
  congruence.
Qed.

Lemma lookup_cons_ne (k k' : string) (o : json) (os : list (string * json)) :
  k' <> k -> lookup k' ((k, o) :: os) = lookup k' os.
Proof. intros Hne. simpl. destruct (String.eqb_spec k' k); [congruence|reflexivity]. Qed.

(** A successful zod parse keeps the value found at every leaf path. *)
Lemma zparse_leaf_values :
  (forall s, wf_schema s = true -> forall v out, zparse s v = Some out ->
     forall pl, In pl (leaves s) -> path_lookup out (fst pl) = path_lookup v (fst pl)) /\
  (forall sh, wf_shape sh = true -> forall fields outs,
     zparse_shape sh fields = Some outs ->
     forall pl, In pl (leaves_shape sh) ->
     path_lookup (JObj outs) (fst pl) = path_lookup (JObj fields) (fst pl)).
Proof.
  set (P := fun s => wf_schema s = true -> forall v out, zparse s v = Some out ->
     forall pl, In pl (leaves s) -> path_lookup out (fst pl) = path_lookup v (fst pl)).
  set (P0 := fun sh => wf_shape sh = true -> forall fields outs,
     zparse_shape sh fields = Some outs ->
     forall pl, In pl (leaves_shape sh) ->
     path_lookup (JObj outs) (fst pl) = path_lookup (JObj fields) (fst pl)).
  assert (Hnum : P SNum).
  { intros _ v out H pl [<-|[]]. destruct v; simpl in H; try discriminate.
    injection H as <-. reflexivity. }
  assert (Henum : forall vals, P (SEnum vals)).
  { intros vals _ v out H pl [<-|[]]. destruct v; simpl in H; try discriminate.
    destruct (existsb _ vals); [|discriminate]. injection H as <-. reflexivity. }
  assert (Hobj : forall sh, P0 sh -> P (SObj sh)).
  { intros sh IH Hwf v out H pl Hin.
    assert (Hwfs : wf_shape sh = true) by (destruct sh; [discriminate|exact Hwf]).
    destruct v; simpl in H; try discriminate.
    destruct (zparse_shape sh fields) as [fs|] eqn:E; [|discriminate].
    injection H as <-. exact (IH Hwfs fields fs E pl Hin). }
  assert (Hnil : P0 SNil) by (intros _ fields outs _ pl []).
  assert (Hcons : forall k s', P s' -> forall rest, P0 rest -> P0 (SCons k s' rest)).
  { intros k s' IHs rest IHr Hwf fields outs H pl Hin.
    simpl in Hwf. apply andb_prop in Hwf as [Hwf Hr]. apply andb_prop in Hwf as [Hk Hs].
    apply negb_true_iff in Hk.
    simpl in H. destruct (lookup k fields) as [w|] eqn:Ew; [|discriminate].
    destruct (zparse s' w) as [o|] eqn:E1; [|discriminate].
    destruct (zparse_shape rest fields) as [os|] eqn:E2; [|discriminate].
    injection H as <-. simpl in Hin. apply in_app_or in Hin as [Hin|Hin].
    - apply in_map_iff in Hin as (pl' & <- & Hin). simpl fst.
      simpl path_lookup. rewrite String.eqb_refl, Ew.
      exact (IHs Hs w o E1 pl' Hin).
    - destruct (leaves_shape_paths rest pl Hin) as (k' & p & Ep & Hk').
      pose proof (IHr Hr fields os E2 pl Hin) as IH. rewrite Ep in IH |- *.
      cbn [path_lookup] in IH |- *.
      rewrite (lookup_cons_ne k k' o os (existsb_eqb_false k (keys rest) Hk k' Hk')).
      exact IH. }
  split.
  - apply (schema_mut P P0 Hnum Henum Hobj Hnil Hcons).
  - apply (shape_mut P P0 Hnum Henum Hobj Hnil Hcons).
Qed.

Lemma leaf_ok_num (o : option json) : leaf_ok SNum o = is_num o.
Proof. destruct o as [[]|]; reflexivity. Qed.

Lemma leaf_ok_phase (o : option json) : leaf_ok (SEnum phase_values) o = is_phase o.
Proof. destruct o as [[]|]; try reflexivity. simpl.
  match goal with |- is_some (if ?b then _ else _) = _ => destruct b end; reflexivity. Qed.

Lemma wf_TelemetryPacketSchema : wf_schema TelemetryPacketSchema = true.
Proof. reflexivity. Qed.

Lemma validate_iff_wire_ok (raw : json) : is_some (validate raw) = wire_ok raw.
Proof.
  unfold validate. rewrite (proj1 zparse_leaves _ wf_TelemetryPacketSchema).
  cbn [TelemetryPacketSchema vec3 leaves leaves_shape map app forallb fst snd].
  rewrite !leaf_ok_num, !leaf_ok_phase.
  unfold wire_ok, numeric_fields. cbn [forallb].
  btauto.
Qed.

End ValidateProofs.

Module ValidateClaims.
Import Validate ValidateSpec Samples ValidateProofs.

Lemma numeric_fields_leaves (p : list string) :
  In p (app numeric_fields [["phase"]]) -> In p (map fst (leaves TelemetryPacketSchema)).
Proof.
  intros H. simpl in H.
  repeat (destruct H as [<-|H]; [simpl; repeat first [left; reflexivity | right]|]).
  destruct H.
Qed.

(** C8 (as the code behaves): validation succeeds exactly when every numeric
    field of the wire schema is present with numeric type and [phase] is one
    of the seven enum values; on success the packet handed to the store is
    the raw input projected on the schema (keys outside the schema are
    dropped, keys in schema order), every field of the schema keeping its raw
    value. It is not the raw input itself in general. *)
Theorem validate_wire_projection (raw : json) :
  is_some (validate raw) = wire_ok raw /\
  (forall out, validate raw = Some out ->
     out = project TelemetryPacketSchema raw /\
     forall p, In p (app numeric_fields [["phase"]]) ->
       path_lookup out p = path_lookup raw p).
Proof.
  split; [apply validate_iff_wire_ok|].
  intros out H. split.
  - exact (proj1 zparse_project _ _ _ H).
  - intros p Hp. apply numeric_fields_leaves, in_map_iff in Hp as (pl & <- & Hin).
    exact (proj1 zparse_leaf_values _ wf_TelemetryPacketSchema raw out H pl Hin).
Qed.

Lemma validate_wire_projection_witness :
  is_some (validate raw_extra) = wire_ok raw_extra /\
  exists out, validate raw_extra = Some out /\
    path_lookup out ["phase"] = path_lookup raw_extra ["phase"].
Proof.
  split; [exact (proj1 (validate_wire_projection raw_extra))|].
  eexists. split; [reflexivity|].
  apply (proj2 (proj2 (validate_wire_projection raw_extra) _ eq_refl)).
  simpl. repeat first [left; reflexivity | right].
Defined.

(** C8, counterexample to "the validated packet is the raw input unchanged":
    a message with one extra key validates, and the packet forwarded to the
    store differs from the raw input (the extra key is stripped). *)
Lemma validate_strips_unknown_keys :
  exists out, validate raw_extra = Some out /\ out <> raw_extra.
Proof.
  eexists. split; [reflexivity|].
  intros E. apply (f_equal (fun j => match j with JObj l => List.length l | _ => 0%nat end)) in E.
  discriminate E.
Qed.

End ValidateClaims.

Module ConnProofs.
Import Types Store Validate Conn ConnSession.
Local Open Scope Z_scope.

Lemma addLog_last (e d : LogEntry) (s : TelemetryState) :
  last (logs (addLog e s)) d = e.
Proof.
  unfold addLog; simpl logs.
  destruct (Nat.ltb LOG_BUFFER_SIZE (List.length (logs s ++ [e]))) eqn:E.
  - destruct (logs s) as [|a l]; [discriminate E|]. simpl app. unfold shift; simpl tl.
    apply last_last.
  - apply last_last.
Qed.

Lemma addLog_logs (e : LogEntry) (s : TelemetryState) :
  (List.length (logs s) < 1000)%nat -> logs (addLog e s) = logs s ++ [e].
Proof.
  intros H. unfold addLog; simpl logs.
  destruct (Nat.ltb_spec LOG_BUFFER_SIZE (List.length (logs s ++ [e]))) as [Hlt|_];
    [|reflexivity].
  rewrite length_app in Hlt. unfold LOG_BUFFER_SIZE in Hlt. simpl in Hlt. lia.
Qed.

Lemma sock_state_set (id : nat) (st : ReadyState) (l : list (nat * ReadyState)) :
  sock_state id (set_sock id st l) = option_map (fun _ => st) (sock_state id l).
Proof.
  induction l as [|[i s] l IH]; [reflexivity|]. unfold set_sock in *. simpl map.
  destruct (Nat.eqb i id) eqn:E; simpl; rewrite E; [reflexivity|exact IH].
Qed.

Lemma onclose_sched (id : nat) (now : Z) (h : Hook) :
  enabled h = true -> (retryCount h < 5)%nat ->
  let h' := onclose id now h in
  retryTimeoutRef h' = Some (next_id h) /\
  timers h' = timers h ++ [(next_id h, retry_delay (retryCount h))] /\
  store h' = addLog (mkLogEntry warning ("Connection lost. Retrying in " ++
                       Z_to_string (retry_delay (retryCount h)) ++ "ms...") now)
               (setConnected false now (store h)).
Proof.
  intros He Hn. unfold onclose. rewrite He.
  destruct (Nat.ltb_spec (retryCount h) 5); [|lia]. simpl. auto.
Qed.

Lemma onclose_nosched (id : nat) (now : Z) (h : Hook) :
  (5 <= retryCount h)%nat ->
  let h' := onclose id now h in
  retryTimeoutRef h' = retryTimeoutRef h /\ timers h' = timers h.
Proof.
  intros Hn. unfold onclose.
  destruct (Nat.ltb_spec (retryCount h) 5); [lia|]. rewrite andb_false_r. simpl. auto.
Qed.

Lemma onclose_frame (id : nat) (now : Z) (h : Hook) :
  let h' := onclose id now h in
  enabled h' = enabled h /\ wsRef h' = wsRef h /\ retryCount h' = retryCount h /\
  sockets h' = set_sock id CLOSED (sockets h).
Proof. unfold onclose. destruct (_ && _); simpl; auto. Qed.

Lemma retry_delay_small (n : nat) :
  (n < 5)%nat -> retry_delay n = 1000 * 2 ^ Z.of_nat n /\ retry_delay n <= 16000.
Proof.
  intros Hn. unfold retry_delay.
  destruct n as [|[|[|[|[|n]]]]]; [..|lia]; simpl; split; reflexivity || discriminate.
Qed.

Lemma connect_frame (ok : bool) (now : Z) (h : Hook) :
  let h' := connect ok now h in
  enabled h' = enabled h /\ retryCount h' = retryCount h.
Proof. unfold connect. destruct (_ || _); [auto|]. destruct ok; simpl; auto. Qed.

(** After its socket has closed, the reconnect timer's [connect()] opens a
    new socket. *)
Lemma retry_after_close (id t : nat) (now now' : Z) (h : Hook) :
  enabled h = true -> wsRef h = Some id ->
  let h' := retry_fire t true now' (onclose id now h) in
  enabled h' = true /\ retryCount h' = S (retryCount h) /\ wsRef h' <> None.
Proof.
  intros He Hw. destruct (onclose_frame id now h) as (E1 & E2 & E3 & E4).
  unfold retry_fire, connect, is_open; simpl.
  rewrite E1, E2, E3, E4, He, Hw, sock_state_set. simpl.
  destruct (sock_state id (sockets h)); simpl; repeat split; congruence.
Qed.

Lemma fail_rounds_spec (k : nat) (now : Z) (h : Hook) :
  enabled h = true -> wsRef h <> None ->
  fail_rounds k now h = firstn k (map retry_delay (seq (retryCount h) (5 - retryCount h))).
Proof.
  revert h. induction k as [|k IH]; intros h He Hw; [reflexivity|].
  simpl fail_rounds. destruct (wsRef h) as [id|] eqn:Ew; [|congruence].
  destruct (Nat.ltb_spec (retryCount h) 5) as [Hn|Hn].
  - destruct (onclose_sched id now h He Hn) as (_ & Et & _).
    rewrite Et, last_last, length_app. simpl List.length.
    destruct (Nat.ltb_spec (List.length (timers h)) (List.length (timers h) + 1));
      [|lia].
    replace (5 - retryCount h)%nat with (S (4 - retryCount h)) by lia.
    simpl seq. simpl map. simpl firstn. f_equal.
    destruct (retry_after_close id (next_id h) now now h He Ew) as (E1 & E2 & E3).
    rewrite IH by assumption. rewrite E2.
    replace (5 - S (retryCount h))%nat with (4 - retryCount h)%nat by lia. reflexivity.
  - destruct (onclose_nosched id now h Hn) as (_ & Et).
    rewrite Et. rewrite Nat.ltb_irrefl.
    replace (5 - retryCount h)%nat with O by lia. destruct k; reflexivity.
Qed.

End ConnProofs.

Module ConnClaims.
Import Types Store Validate ValidateSpec Conn ConnSession Samples ConnProofs.
Local Open Scope Z_scope.

(** C6: a message that does not parse, or parses but fails validation (a
    phase outside the enum, say), adds exactly one log entry, of type
    [error], through [addLog]; the packet, the history and the maxima are
    untouched, and nothing of the connection changes (the socket stays, no
    timer is set or cleared, the retry counter is kept). *)
Theorem malformed_message_logged (data : option json) (now : Z) (h : Hook)
  (Hbad : match data with Some d => validate d = None | None => True end) :
  let h' := onmessage data now h in
  (exists e, type e = error /\ store h' = addLog e (store h) /\
     last (logs (store h')) e = e /\
     ((List.length (logs (store h)) < 1000)%nat -> logs (store h') = logs (store h) ++ [e])) /\
  currentPacket (store h') = currentPacket (store h) /\
  history (store h') = history (store h) /\
  sessionMaxima (store h') = sessionMaxima (store h) /\
  isConnected (store h') = isConnected (store h) /\
  wsRef h' = wsRef h /\ sockets h' = sockets h /\ timers h' = timers h /\
  retryTimeoutRef h' = retryTimeoutRef h /\ retryCount h' = retryCount h.
Proof.
  assert (Hlog : forall e, type e = error ->
    let h' := with_store h (addLog e (store h)) in
    (exists e', type e' = error /\ store h' = addLog e' (store h) /\
       last (logs (store h')) e' = e' /\
       ((List.length (logs (store h)) < 1000)%nat ->
        logs (store h') = logs (store h) ++ [e'])) /\
    currentPacket (store h') = currentPacket (store h) /\
    history (store h') = history (store h) /\
    sessionMaxima (store h') = sessionMaxima (store h) /\
    isConnected (store h') = isConnected (store h) /\
    wsRef h' = wsRef h /\ sockets h' = sockets h /\ timers h' = timers h /\
    retryTimeoutRef h' = retryTimeoutRef h /\ retryCount h' = retryCount h).
  { intros e He. simpl. split; [|repeat split].
    exists e. split; [exact He|split; [reflexivity|split]].
    - apply addLog_last.
    - apply addLog_logs. }
  unfold onmessage. destruct data as [d|].
  - rewrite Hbad. apply Hlog. reflexivity.
  - apply Hlog. reflexivity.
Qed.

Lemma malformed_message_logged_witness :
  validate raw_bad_phase = None /\
  currentPacket (store (onmessage (Some raw_bad_phase) 0 (hook_with_count 0))) = None.
Proof.
  split; [reflexivity|].
  exact (proj1 (proj2 (malformed_message_logged (Some raw_bad_phase) 0 (hook_with_count 0)
                         eq_refl))).
Defined.

(** C4 (as the code behaves): when a socket of an enabled hook closes with
    the retry counter at [n < 5], one reconnect timer is scheduled with delay
    [min(1000 * 2^n, 30000) = 1000 * 2^n <= 16000], announced by a warning
    log stating that delay; at [n >= 5] no timer is scheduled. The counter
    is kept by [onclose] and incremented when the timer fires. Along a run
    in which every attempt fails, starting from counter 0, the scheduled
    delays are exactly 1000, 2000, 4000, 8000, 16000: five automatic
    retries, the 30000 ms cap never reached. *)
Theorem reconnect_schedule :
  (forall id now h, enabled h = true ->
     let h' := onclose id now h in
     retryCount h' = retryCount h /\
     ((retryCount h < 5)%nat ->
        retry_delay (retryCount h) = 1000 * 2 ^ Z.of_nat (retryCount h) /\
        retry_delay (retryCount h) <= 16000 /\
        retryTimeoutRef h' = Some (next_id h) /\
        timers h' = timers h ++ [(next_id h, retry_delay (retryCount h))] /\
        exists e, last (logs (store h')) e =
          mkLogEntry warning ("Connection lost. Retrying in " ++
                              Z_to_string (retry_delay (retryCount h)) ++ "ms...") now) /\
     ((5 <= retryCount h)%nat ->
        retryTimeoutRef h' = retryTimeoutRef h /\ timers h' = timers h)) /\
  (forall t ok now h, retryCount (retry_fire t ok now h) = S (retryCount h)) /\
  (forall k now h, enabled h = true -> wsRef h <> None -> retryCount h = O ->
     fail_rounds k now h = firstn k [1000; 2000; 4000; 8000; 16000]).
Proof.
  split; [|split].
  - intros id now h He. cbv zeta.
    split; [exact (proj1 (proj2 (proj2 (onclose_frame id now h))))|split].
    + intros Hn. destruct (retry_delay_small _ Hn) as [D1 D2].
      destruct (onclose_sched id now h He Hn) as (R1 & R2 & R3).
      split; [exact D1|split; [exact D2|split; [exact R1|split; [exact R2|]]]].
      rewrite R3. exists (mkLogEntry info EmptyString 0). apply addLog_last.
    + intros Hn. exact (onclose_nosched id now h Hn).
  - intros t ok now h. unfold retry_fire.
    exact (proj2 (connect_frame ok now _)).
  - intros k now h He Hw H0. rewrite (fail_rounds_spec k now h He Hw), H0. reflexivity.
Qed.

Lemma reconnect_schedule_witness :
  fail_rounds 3 0 (connect true 0 (hook_with_count 0)) = [1000; 2000; 4000].
Proof.
  exact (proj2 (proj2 reconnect_schedule) 3%nat 0 (connect true 0 (hook_with_count 0))
           eq_refl ltac:(discriminate) eq_refl).
Defined.

(** C4, counterexample to "the delays are 1000, 2000, 4000, 8000, 16000,
    30000 for attempts 0 through 5 and beyond": on a run where every
    attempt fails, from a fresh enabled hook, only five retries are ever
    scheduled, and no delay of 30000 ms occurs. *)
Lemma reconnect_never_30000 :
  fail_rounds 10 0 (connect true 0 (hook_with_count 0)) = [1000; 2000; 4000; 8000; 16000] /\
  ~ In 30000 (fail_rounds 10 0 (connect true 0 (hook_with_count 0))).
Proof.
  assert (E : fail_rounds 10 0 (connect true 0 (hook_with_count 0)) =
              [1000; 2000; 4000; 8000; 16000]) by reflexivity.
  split; [exact E|]. rewrite E. simpl. intuition discriminate.
Qed.

(** C5 (as the code behaves): [disconnect()] cancels the reconnect timer
    recorded in [retryTimeoutRef] and clears that ref; every other pending
    reconnect timer stays scheduled. It closes the socket held in [wsRef] (it
    becomes closing, or stays closed) and drops it, and sets the connected
    flag to false. The retry counter is left as it was. *)
Theorem disconnect_effect (now : Z) (h : Hook) :
  let h' := disconnect now h in
  retryTimeoutRef h' = None /\
  (forall t, retryTimeoutRef h = Some t -> timers h' = remove_timer t (timers h) /\
     forall d, ~ In (t, d) (timers h')) /\
  (retryTimeoutRef h = None -> timers h' = timers h) /\
  (forall t d, In (t, d) (timers h) -> retryTimeoutRef h <> Some t -> In (t, d) (timers h')) /\
  wsRef h' = None /\
  (forall id, wsRef h = Some id -> sock_state id (sockets h) <> None ->
     sock_state id (sockets h') = Some CLOSING \/ sock_state id (sockets h') = Some CLOSED) /\
  isConnected (store h') = false /\
  retryCount h' = retryCount h.
Proof.
  unfold disconnect.
  destruct (retryTimeoutRef h) as [t0|] eqn:Er; destruct (wsRef h) as [id0|] eqn:Ew;
    simpl.
  all: split; [reflexivity|].
  all: split; [intros t Ht; (discriminate || (injection Ht as <-; split;
                 [reflexivity|intros d Hin; apply filter_In in Hin as [_ Hin];
                  simpl in Hin; rewrite Nat.eqb_refl in Hin; discriminate]))|].
  all: split; [intros Ht; (discriminate || reflexivity)|].
  all: split; [intros t d Hin Hne;
               first [ exact Hin
                     | apply filter_In; split; [exact Hin|];
                       destruct (Nat.eqb_spec t t0) as [->|Hd];
                       [contradiction Hne; reflexivity|reflexivity] ]|].
  all: split; [reflexivity|].
  all: split; [|split; reflexivity].
  all: intros id Hid Hs; (discriminate || (injection Hid as <-)).
  all: unfold close_sock; destruct (sock_state id0 (sockets h)) as [[]|] eqn:Es;
         try congruence; rewrite ?sock_state_set, ?Es; simpl; auto.
Qed.

(** C5, counterexample to "[disconnect()] cancels any pending retry timer
    and resets the retry counter to 0". A hook whose counter is 3 keeps it
    through [disconnect()]. And when two sockets were started while
    CONNECTING and both closed, two reconnect timers (2 and 3) are pending;
    [disconnect()] cancels only timer 3, the one in [retryTimeoutRef], and
    when timer 2 fires [connect()] creates socket 4. *)
Lemma disconnect_keeps_count_and_old_timer :
  retryCount (disconnect 0 (hook_with_count 3)) = 3%nat /\
  let h := onclose 1 0 (onclose 0 0 (connect true 0 (connect true 0 (hook_with_count 0)))) in
  timers h = [(2%nat, 1000%Z); (3%nat, 1000%Z)] /\ retryTimeoutRef h = Some 3%nat /\
  timers (disconnect 0 h) = [(2%nat, 1000%Z)] /\
  wsRef (retry_fire 2 true 0 (disconnect 0 h)) = Some 4%nat /\
  sock_state 4 (sockets (retry_fire 2 true 0 (disconnect 0 h))) = Some CONNECTING.
Proof. vm_compute. repeat split. Qed.

End ConnClaims.

(* ------------------------------------------------------------------------- *)
(** ** The simulator, in every number type *)

Module SimProofs.
Import Types Sim SimSpec ExtraDefs.
Local Open Scope list_scope.

Lemma has_apogee_In (l : list FlightPhase) : has_apogee l = true <-> In Apogee l.
Proof.
  unfold has_apogee. rewrite existsb_exists. split.
  - intros (p & Hin & E). destruct p; try discriminate E. exact Hin.
  - intros Hin. exists Apogee. split; [exact Hin|reflexivity].
Qed.

Lemma has_apogee_app (l1 l2 : list FlightPhase) :
  has_apogee (l1 ++ l2) = has_apogee l1 || has_apogee l2.
Proof. apply existsb_app. Qed.

Lemma apogee_ok_app (s : bool) (l1 l2 : list FlightPhase) :
  apogee_ok s (l1 ++ l2) = apogee_ok s l1 && apogee_ok (s || has_apogee l1) l2.
Proof.
  revert s. induction l1 as [|p l1 IH]; intros s.
  - simpl. rewrite orb_false_r. reflexivity.
  - unfold has_apogee in *. destruct p; cbn [app apogee_ok existsb FlightPhase_eqb orb];
      rewrite ?IH; destruct s; cbn [negb andb orb]; try reflexivity;
      rewrite ?andb_assoc; reflexivity.
Qed.

Lemma apogee_ok_seen (l : list FlightPhase) : apogee_ok true l = true -> ~ In Apogee l.
Proof.
  induction l as [|p l IH]; [intros _ []|].
  intros Hok [E|Hin]; [subst p; discriminate Hok|].
  destruct p; cbn [apogee_ok andb] in Hok; try discriminate Hok; exact (IH Hok Hin).
Qed.





Section Generic.
Context {A : Type} `{Num A}.

Lemma decide_latch (t : A) (a : bool) (s : VState A) :
  let '(p, a') := decide_phase t a s in
  (p = Apogee /\ a = false /\ a' = true) \/
  (p <> Apogee /\ a' = a /\ (p = DrogueDeploy \/ p = MainDeploy -> a = true)).
Proof.
  unfold decide_phase.
  destruct a; cbn [negb andb];
  repeat match goal with |- context [if ?b then _ else _] => destruct b end;
  first [ left; split; [reflexivity|split; reflexivity]
        | right; split; [discriminate|split; [reflexivity|]];
          intros [E|E]; (discriminate E || reflexivity) ].
Qed.

Lemma latch_app (l : list FlightPhase) (a a' : bool) (p : FlightPhase) :
  a = has_apogee l -> apogee_ok false l = true ->
  (p = Apogee /\ a = false /\ a' = true) \/
  (p <> Apogee /\ a' = a /\ (p = DrogueDeploy \/ p = MainDeploy -> a = true)) ->
  a' = has_apogee (l ++ [p]) /\ apogee_ok false (l ++ [p]) = true.
Proof.
  intros Ha Hok D. rewrite has_apogee_app, apogee_ok_app, Hok, <- Ha. cbn [orb andb].
  destruct D as [(-> & -> & ->)|(Hp & -> & Hd)]; [split; reflexivity|].
  unfold has_apogee. destruct p; cbn [existsb FlightPhase_eqb apogee_ok orb]; rewrite ?orb_false_r;
    try (split; [reflexivity|destruct a; reflexivity]).
  - congruence.
  - rewrite (Hd (or_introl eq_refl)). split; reflexivity.
  - rewrite (Hd (or_intror eq_refl)). split; reflexivity.
Qed.

Lemma step_latch (now : Z) (w : Sim A) : LatchInv w -> LatchInv (stepSimulation now w).
Proof.
  intros [Ha Hok]. unfold stepSimulation.
  destruct (Z.eqb (t0 w) 0); [split; assumption|].
  destruct (accelerations _ _) as [[[ax ay] az] s0].
  match goal with |- context [decide_phase ?t ?a ?s] =>
    pose proof (decide_latch t a s) as D; destruct (decide_phase t a s) as [p a'] end.
  destruct (latch_app _ _ _ _ Ha Hok D) as [E1 E2].
  destruct p; try destruct (landed w); split; cbn [apogeeReached emitted];
    try assumption.
  destruct D as [(E & _)|(_ & -> & _)]; [discriminate E|assumption].
Qed.

Lemma handle_latch (w : Sim A) (e : event) : LatchInv w -> LatchInv (handle w e).
Proof.
  intros I. destruct e as [now|]; cbn [handle].
  - destruct (interval w); [apply step_latch, I|exact I].
  - destruct (grace w); [exact I|exact I].
Qed.

Lemma run_latch (evs : list event) (w : Sim A) : LatchInv w -> LatchInv (run evs w).
Proof.
  revert w. induction evs as [|e evs IH]; intros w I; [exact I|].
  exact (IH _ (handle_latch w e I)).
Qed.

Lemma step_count (n : nat) (now : Z) (w : Sim A) :
  CountInv n w -> CountInv (S n) (stepSimulation now w).
Proof.
  intros [I0 I1]. unfold stepSimulation.
  destruct (Z.eqb_spec (t0 w) 0) as [E|E].
  - rewrite (I0 E). split; cbn [t0 emitted]; [reflexivity|intros _; simpl; lia].
  - specialize (I1 E). destruct (accelerations _ _) as [[[ax ay] az] s0].
    destruct (decide_phase _ _ _) as [p a'].
    destruct p; try destruct (landed w); split; cbn [t0 emitted];
      intros E'; try contradiction; rewrite ?length_app; simpl; lia.
Qed.

Lemma run_count (evs : list event) (n : nat) (w : Sim A) :
  CountInv n w -> CountInv (n + List.length (tick_times evs)) (run evs w).
Proof.
  revert n w. induction evs as [|[now|] evs IH]; intros n w I.
  - simpl. rewrite Nat.add_0_r. exact I.
  - cbn [tick_times List.length]. rewrite Nat.add_succ_r, <- Nat.add_succ_l.
    apply IH. cbn [handle]. destruct (interval w).
    + apply step_count, I.
    + destruct I as [I0 I1]. split; [exact I0|intros E; specialize (I1 E); lia].
  - cbn [tick_times]. apply IH. cbn [handle]. destruct (grace w); [exact I|exact I].
Qed.

(** A run that starts with the interval cleared. *)
Lemma halted_run (evs : list event) (w : Sim A) :
  interval w = false -> isConnected w = false ->
  let w' := run evs w in
  emitted w' = emitted w /\ st w' = st w /\ interval w' = false /\ isConnected w' = false.
Proof.
  revert w. induction evs as [|[now|] evs IH]; intros w Hi Hc; cbv zeta; [repeat split; assumption| |].
  - cbn [run fold_left handle]. rewrite Hi. exact (IH w Hi Hc).
  - cbn [run fold_left handle]. destruct (grace w) as [|g gs].
    + exact (IH w Hi Hc).
    + exact (IH (graceCallback w) eq_refl eq_refl).
Qed.

(** One tick: the flags are untouched, and it emits nothing, one packet of a
    phase other than landed, the first landed packet (scheduling the
    post-landing callback), or nothing for a repeated landing. *)
Lemma step_emits (now : Z) (w : Sim A) :
  let w' := stepSimulation now w in
  interval w' = interval w /\ isSimulating w' = isSimulating w /\
  isConnected w' = isConnected w /\
  ((emitted w' = emitted w /\ grace w' = grace w /\ landed w' = landed w) \/
   (exists p, p <> Landed /\ emitted w' = emitted w ++ [p] /\ grace w' = grace w /\
      landed w' = landed w) \/
   (landed w = false /\ landed w' = true /\ emitted w' = emitted w ++ [Landed] /\
      grace w' = grace w ++ [2000%Z]) \/
   (landed w = true /\ landed w' = true /\ emitted w' = emitted w /\ grace w' = grace w)).
Proof.
  cbv zeta. unfold stepSimulation.
  destruct (Z.eqb (t0 w) 0); [repeat split; left; repeat split|].
  destruct (accelerations _ _) as [[[ax ay] az] s0].
  destruct (decide_phase _ _ _) as [p a'].
  destruct p; try (destruct (landed w) eqn:Hl);
    cbn [interval isSimulating isConnected emitted grace landed];
    (split; [reflexivity|split; [reflexivity|split; [reflexivity|]]]);
    first [ right; left; eexists; split; [|split; [reflexivity|split; reflexivity]]; discriminate
          | solve [right; right; left; repeat split]
          | solve [right; right; right; repeat split] ].
Qed.




End Generic.

End SimProofs.

Module SimClaims.
Import Types Sim SimSpec ExtraDefs SimProofs.
Local Open Scope list_scope.





End SimClaims.

(* ------------------------------------------------------------------------- *)
(** ** Further properties of the code *)

Module StoreExtra.
Import Types Store ExtraDefs.

Lemma skipn_tl {X} (k : nat) (l : list X) : skipn k (tl l) = skipn (S k) l.
Proof. revert l; induction k as [|k IH]; intros [|a l]; simpl; auto. Qed.

Lemma push_fold {X} (cap : nat) (xs l : list X) :
  (List.length l <= cap)%nat ->
  fold_left (push cap) xs l = skipn (List.length (l ++ xs) - cap) (l ++ xs).
Proof.
  revert l. induction xs as [|x xs IH]; intros l Hl.
  - simpl. rewrite app_nil_r. replace (List.length l - cap)%nat with 0%nat by lia. reflexivity.
  - simpl. unfold push at 2. cbv zeta.
    destruct (Nat.ltb_spec cap (List.length (l ++ [x]))) as [Hlt|Hge];
      rewrite length_app in *; simpl in *.
    + assert (Hlen : List.length l = cap) by lia.
      rewrite IH.
      * destruct l as [|a l]; simpl in Hlen |- *.
        -- subst cap. simpl. rewrite Nat.sub_0_r. reflexivity.
        -- subst cap. rewrite <- !app_assoc. cbn [app tl].
           rewrite !length_app. cbn [List.length].
           match goal with |- skipn ?k1 _ = skipn ?k2 _ =>
             replace k1 with (List.length xs) by lia;
             replace k2 with (S (List.length xs)) by lia end.
           reflexivity.
      * destruct l; simpl in *; rewrite ?length_app; simpl; lia.
    + rewrite IH by (rewrite length_app; simpl; lia).
      rewrite <- app_assoc. cbn [app]. f_equal.
      rewrite !length_app. cbn [List.length]. lia.
Qed.

Lemma logs_fold (es : list LogEntry) (s : TelemetryState) :
  logs (fold_left (fun st e => addLog e st) es s) = fold_left (push 1000) es (logs s).
Proof.
  revert s. induction es as [|e es IH]; intros s; [reflexivity|].
  simpl. rewrite IH. reflexivity.
Qed.

(** [addLog] is a FIFO buffer of capacity 1000: from a store holding at most
    1000 log entries, after any sequence of [addLog] calls the logs are the
    last (at most 1000) entries of the old logs followed by the new ones; the
    packet, history and maxima are untouched. *)
Theorem addLog_bounded_fifo (es : list LogEntry) (s : TelemetryState)
  (Hs : (List.length (logs s) <= 1000)%nat) :
  let s' := fold_left (fun st e => addLog e st) es s in
  logs s' = skipn (List.length (logs s ++ es) - 1000) (logs s ++ es) /\
  (List.length (logs s') <= 1000)%nat /\
  history s' = history s /\ currentPacket s' = currentPacket s /\
  sessionMaxima s' = sessionMaxima s.
Proof.
  cbv zeta. rewrite logs_fold, push_fold by exact Hs.
  split; [reflexivity|]. split; [rewrite length_skipn; lia|].
  clear Hs. revert s. induction es as [|e es IH]; intros s; [auto|].
  simpl. destruct (IH (addLog e s)) as (H1 & H2 & H3). auto.
Qed.

Lemma addLog_bounded_fifo_witness :
  (List.length (logs initialState) <= 1000)%nat /\
  logs (fold_left (fun st e => addLog e st)
          [mkLogEntry info "a" 0; mkLogEntry warning "b" 1] initialState) =
    [mkLogEntry info "a" 0; mkLogEntry warning "b" 1].
Proof.
  assert (Hs : (List.length (logs initialState) <= 1000)%nat) by (simpl; lia).
  split; [exact Hs|].
  exact (proj1 (addLog_bounded_fifo [mkLogEntry info "a" 0; mkLogEntry warning "b" 1]
                  initialState Hs)).
Defined.

Lemma addAll_cons' (p : TelemetryPacket) (ps : list TelemetryPacket) (s : TelemetryState) :
  addAll (p :: ps) s = addAll ps (addTelemetryPacket p s).
Proof. reflexivity. Qed.

(** After any sequence of packets, each session maximum is at least its
    previous value and at least the corresponding quantity of every packet
    of the sequence (altitude, speed, acceleration magnitude, g-force). *)
Theorem maxima_dominate (ps : list TelemetryPacket) (s : TelemetryState) :
  let m := sessionMaxima s in
  let m' := sessionMaxima (addAll ps s) in
  (maxAltitude m <= maxAltitude m' /\ maxVelocity m <= maxVelocity m' /\
   maxAcceleration m <= maxAcceleration m' /\ maxGForce m <= maxGForce m')%R /\
  forall p, In p ps ->
   (altitude (baro p) <= maxAltitude m' /\ magnitude (velocity p) <= maxVelocity m' /\
    magnitude (accel (imu p)) <= maxAcceleration m' /\
    magnitude (accel (imu p)) / 9.81 <= maxGForce m')%R.
Proof.
  cbv zeta. revert s. induction ps as [|p ps IH]; intros s.
  - split; [repeat split; apply Rle_refl|intros p []].
  - rewrite addAll_cons'. destruct (IH (addTelemetryPacket p s)) as [Hm Hp].
    cbn [sessionMaxima addTelemetryPacket maxAltitude maxVelocity maxAcceleration maxGForce] in Hm.
    destruct Hm as (H1 & H2 & H3 & H4).
    split.
    + repeat split; eapply Rle_trans; [apply Rmax_l|exact H1|apply Rmax_l|exact H2
                                       |apply Rmax_l|exact H3|apply Rmax_l|exact H4].
    + intros q [<-|Hq]; [|exact (Hp q Hq)].
      repeat split; eapply Rle_trans; [apply Rmax_r|exact H1|apply Rmax_r|exact H2
                                       |apply Rmax_r|exact H3|apply Rmax_r|exact H4].
Qed.

Lemma Rmax_div (a b c : R) : (0 < c)%R -> Rmax (a / c) (b / c) = (Rmax a b / c)%R.
Proof.
  intros Hc. assert (Hi : (0 < / c)%R) by (apply Rinv_0_lt_compat; exact Hc).
  unfold Rmax, Rdiv. destruct (Rle_dec a b) as [H|H], (Rle_dec (a * / c) (b * / c)) as [H'|H'];
    try reflexivity.
  - exfalso. apply H'. apply Rmult_le_compat_r; [lra|exact H].
  - exfalso. apply H. apply Rnot_le_lt in H.
    apply (Rmult_lt_compat_r (/ c)) in H; [lra|exact Hi].
Qed.

(** [maxGForce] stays equal to [maxAcceleration / 9.81] along any sequence of
    packets once it holds, as it does after [clearHistory]. *)
Theorem gforce_tracks_acceleration (ps : list TelemetryPacket) (s : TelemetryState)
  (Hs : maxGForce (sessionMaxima s) = (maxAcceleration (sessionMaxima s) / 9.81)%R) :
  maxGForce (sessionMaxima (addAll ps s)) = (maxAcceleration (sessionMaxima (addAll ps s)) / 9.81)%R.
Proof.
  revert s Hs. induction ps as [|p ps IH]; intros s Hs; [exact Hs|].
  rewrite addAll_cons'. apply IH.
  cbn [sessionMaxima addTelemetryPacket maxAcceleration maxGForce]. rewrite Hs.
  apply Rmax_div. lra.
Qed.

Lemma gforce_tracks_acceleration_witness :
  maxGForce (sessionMaxima (clearHistory initialState)) =
    (maxAcceleration (sessionMaxima (clearHistory initialState)) / 9.81)%R /\
  maxGForce (sessionMaxima (addAll [Samples.sample_packet Samples.v0] (clearHistory initialState))) =
    (maxAcceleration (sessionMaxima (addAll [Samples.sample_packet Samples.v0] (clearHistory initialState))) / 9.81)%R.
Proof.
  assert (H : maxGForce (sessionMaxima (clearHistory initialState)) =
    (maxAcceleration (sessionMaxima (clearHistory initialState)) / 9.81)%R)
    by (cbn; unfold Rdiv; ring).
  split; [exact H|].
  exact (gforce_tracks_acceleration _ _ H).
Defined.

End StoreExtra.

Module ValidateExtra.
Import Types Store Validate ValidateSpec ValidateProofs ValidateClaims Samples Conn ConnSession.

Lemma shape_skip (k : string) (o : json) (os : list (string * json)) (rest : shape) :
  existsb (String.eqb k) (keys rest) = false ->
  zparse_shape rest ((k, o) :: os) = zparse_shape rest os.
Proof.
  induction rest as [|k2 s2 r IH]; intros H; [reflexivity|].
  cbn [keys existsb] in H. apply orb_false_iff in H as [H1 H2].
  cbn [zparse_shape]. rewrite lookup_cons_ne.
  - rewrite (IH H2). reflexivity.
  - intros ->. rewrite String.eqb_refl in H1. discriminate.
Qed.

Lemma zparse_idem :
  (forall s, wf_schema s = true -> forall v o, zparse s v = Some o -> zparse s o = Some o) /\
  (forall sh, wf_shape sh = true -> forall fields outs,
     zparse_shape sh fields = Some outs -> zparse_shape sh outs = Some outs).
Proof.
  set (P := fun s => wf_schema s = true -> forall v o, zparse s v = Some o -> zparse s o = Some o).
  set (P0 := fun sh => wf_shape sh = true -> forall fields outs,
     zparse_shape sh fields = Some outs -> zparse_shape sh outs = Some outs).
  assert (Hnum : P SNum).
  { intros _ v o H. destruct v; simpl in H; try discriminate. injection H as <-. reflexivity. }
  assert (Henum : forall vals, P (SEnum vals)).
  { intros vals _ v o H. destruct v; simpl in H; try discriminate.
    destruct (existsb _ vals) eqn:E; [|discriminate]. injection H as <-.
    simpl. rewrite E. reflexivity. }
  assert (Hobj : forall sh, P0 sh -> P (SObj sh)).
  { intros sh IH Hwf v o H.
    assert (Hwfs : wf_shape sh = true) by (destruct sh; [discriminate|exact Hwf]).
    destruct v; simpl in H; try discriminate.
    destruct (zparse_shape sh fields) as [fs|] eqn:E; [|discriminate].
    injection H as <-. simpl. rewrite (IH Hwfs _ _ E). reflexivity. }
  assert (Hnil : P0 SNil).
  { intros _ fields outs H. simpl in H. injection H as <-. reflexivity. }
  assert (Hcons : forall k s', P s' -> forall rest, P0 rest -> P0 (SCons k s' rest)).
  { intros k s' IHs rest IHr Hwf fields outs H.
    simpl in Hwf. apply andb_prop in Hwf as [Hwf Hr]. apply andb_prop in Hwf as [Hk Hs].
    apply negb_true_iff in Hk.
    simpl in H. destruct (lookup k fields) as [w|]; [|discriminate].
    destruct (zparse s' w) as [o|] eqn:E1; [|discriminate].
    destruct (zparse_shape rest fields) as [os|] eqn:E2; [|discriminate].
    injection H as <-. simpl. rewrite String.eqb_refl.
    rewrite (IHs Hs _ _ E1), (shape_skip k o os rest Hk), (IHr Hr _ _ E2). reflexivity. }
  split.
  - apply (schema_mut P P0 Hnum Henum Hobj Hnil Hcons).
  - apply (shape_mut P P0 Hnum Henum Hobj Hnil Hcons).
Qed.

(** Validation is idempotent: the packet produced by a successful validation
    validates again, to itself. *)
Theorem validate_idempotent (raw out : json) (H : validate raw = Some out) :
  validate out = Some out.
Proof. exact (proj1 zparse_idem _ wf_TelemetryPacketSchema raw out H). Qed.

Lemma validate_idempotent_witness :
  exists out, validate raw_extra = Some out /\ validate out = Some out.
Proof.
  destruct (validate raw_extra) as [out|] eqn:E.
  - exists out. split; [reflexivity|]. exact (validate_idempotent raw_extra out E).
  - exfalso. vm_compute in E. discriminate E.
Defined.

(** A message in which one numeric field of the schema is missing or not a
    number, or whose [phase] is missing or outside the seven names, is
    rejected by validation. *)
Theorem validate_rejects_field (raw : json) (p : list string)
  (Hbad : (In p numeric_fields /\ forall r, path_lookup raw p <> Some (JNum r)) \/
          (p = ["phase"] /\ forall ph, path_lookup raw p <> Some (JStr (phase_name ph)))) :
  validate raw = None.
Proof.
  destruct (validate raw) as [out|] eqn:E; [exfalso|reflexivity].
  assert (Hw : wire_ok raw = true) by (rewrite <- validate_iff_wire_ok, E; reflexivity).
  unfold wire_ok in Hw. apply andb_prop in Hw as [Hn Hph].
  destruct Hbad as [[Hp Hr]|[-> Hr]].
  - rewrite forallb_forall in Hn. specialize (Hn p Hp).
    destruct (path_lookup raw p) as [[]|]; try discriminate. exact (Hr r eq_refl).
  - destruct (path_lookup raw ["phase"]) as [[]|]; try discriminate.
    unfold is_phase, phase_values in Hph. cbn [existsb] in Hph.
    repeat (apply orb_true_iff in Hph as [Hph|Hph];
            [apply String.eqb_eq in Hph; subst s;
             first [ exact (Hr PreFlight eq_refl) | exact (Hr PoweredAscent eq_refl)
                   | exact (Hr Burnout eq_refl) | exact (Hr Apogee eq_refl)
                   | exact (Hr DrogueDeploy eq_refl) | exact (Hr MainDeploy eq_refl)
                   | exact (Hr Landed eq_refl) ]|]).
    discriminate.
Qed.

Lemma validate_rejects_field_witness :
  ((["phase"] = ["phase"]) /\
   forall ph, path_lookup raw_bad_phase ["phase"] <> Some (JStr (phase_name ph))) /\
  validate raw_bad_phase = None.
Proof.
  assert (H : forall ph, path_lookup raw_bad_phase ["phase"] <> Some (JStr (phase_name ph)))
    by (intros ph; destruct ph; simpl; discriminate).
  split; [split; [reflexivity|exact H]|].
  exact (validate_rejects_field raw_bad_phase ["phase"] (or_intror (conj eq_refl H))).
Defined.

Lemma is_num_some (o : option json) : is_num o = true -> exists r, o = Some (JNum r).
Proof. destruct o as [[]|]; try discriminate. eauto. Qed.

Lemma is_phase_some (o : option json) :
  is_phase o = true -> exists ph, o = Some (JStr (phase_name ph)).
Proof.
  destruct o as [[]|]; try discriminate. unfold is_phase, phase_values. cbn [existsb].
  intros H.
  repeat (apply orb_true_iff in H as [H|H];
          [apply String.eqb_eq in H; subst s;
           first [ exists PreFlight; reflexivity | exists PoweredAscent; reflexivity
                 | exists Burnout; reflexivity | exists Apogee; reflexivity
                 | exists DrogueDeploy; reflexivity | exists MainDeploy; reflexivity
                 | exists Landed; reflexivity ]|]).
  discriminate.
Qed.

Lemma wire_ok_packet (v : json) : wire_ok v = true -> exists pkt, packet_of_json v = Some pkt.
Proof.
  unfold wire_ok, numeric_fields. cbn [forallb]. intros H.
  repeat match goal with
  | Hx : _ && _ = true |- _ => apply andb_prop in Hx as [? ?]
  end.
  repeat match goal with
  | Hn : is_num _ = true |- _ => apply is_num_some in Hn as [? Hn]
  | Hp : is_phase _ = true |- _ => apply is_phase_some in Hp as [? Hp]
  end.
  unfold packet_of_json, vec_at, num_at. cbn [app].
  repeat match goal with Hx : path_lookup v _ = Some _ |- _ => rewrite Hx; clear Hx end.
  match goal with |- context [phase_of_name (phase_name ?ph)] => destruct ph end;
  eexists; reflexivity.
Qed.

Lemma packet_of_json_paths (a b : json) :
  (forall p, In p (app numeric_fields [["phase"]]) -> path_lookup a p = path_lookup b p) ->
  packet_of_json a = packet_of_json b.
Proof.
  intros H. unfold packet_of_json, vec_at, num_at. cbn [app].
  repeat match goal with
  | |- context [path_lookup a ?p] =>
      rewrite (H p) by (simpl; repeat first [left; reflexivity | right])
  end.
  reflexivity.
Qed.

(** A message that passes validation always reaches the store: [onmessage]
    passes to [addTelemetryPacket] exactly the packet read from the raw
    message, and changes nothing else of the hook. *)
Theorem onmessage_valid_stored (d out : json) (now : Z) (h : Hook)
  (H : validate d = Some out) :
  exists pkt, packet_of_json d = Some pkt /\
    onmessage (Some d) now h = with_store h (addTelemetryPacket pkt (store h)).
Proof.
  assert (Hw : wire_ok d = true) by (rewrite <- validate_iff_wire_ok, H; reflexivity).
  destruct (wire_ok_packet d Hw) as [pkt Hp].
  exists pkt. split; [exact Hp|].
  assert (Ho : packet_of_json out = Some pkt).
  { rewrite <- Hp. apply packet_of_json_paths. intros p Hin.
    apply numeric_fields_leaves, in_map_iff in Hin as (pl & <- & Hin).
    exact (proj1 zparse_leaf_values _ wf_TelemetryPacketSchema d out H pl Hin). }
  unfold onmessage. rewrite H, Ho. reflexivity.
Qed.

Lemma onmessage_valid_stored_witness :
  exists out, validate raw_extra = Some out /\
  exists pkt, packet_of_json raw_extra = Some pkt /\
    onmessage (Some raw_extra) 0 (hook_with_count 0) =
    with_store (hook_with_count 0) (addTelemetryPacket pkt (store (hook_with_count 0))).
Proof.
  destruct (validate raw_extra) as [out|] eqn:E.
  - exists out. split; [reflexivity|]. exact (onmessage_valid_stored raw_extra out 0 _ E).
  - exfalso. vm_compute in E. discriminate E.
Defined.

End ValidateExtra.

Module ConnExtra.
Import Types Store Validate Conn ConnSession ConnProofs.

Lemma sock_state_app_fresh (id : nat) (st : ReadyState) (l : list (nat * ReadyState)) :
  (forall i s, In (i, s) l -> (i < id)%nat) -> sock_state id (l ++ [(id, st)]) = Some st.
Proof.
  induction l as [|[i s] l IH]; intros H; simpl.
  - rewrite Nat.eqb_refl. reflexivity.
  - destruct (Nat.eqb_spec i id) as [->|_].
    + specialize (H id s (or_introl eq_refl)). lia.
    + apply IH. intros i' s' Hin. exact (H i' s' (or_intror Hin)).
Qed.

Lemma sock_state_set_other (id id' : nat) (st : ReadyState) (l : list (nat * ReadyState)) :
  id <> id' -> sock_state id (set_sock id' st l) = sock_state id l.
Proof.
  intros Hne. induction l as [|[i s] l IH]; [reflexivity|]. unfold set_sock in *. simpl map.
  destruct (Nat.eqb_spec i id') as [->|_]; simpl.
  - destruct (Nat.eqb_spec id' id) as [E|_]; [congruence|exact IH].
  - destruct (Nat.eqb i id); [reflexivity|exact IH].
Qed.

(** [onopen] sets the connected flag and resets the retry counter to 0: if
    the next event on the enabled hook is a socket close, the reconnect timer
    it schedules has the initial delay of 1000 ms, whatever the retry counter
    was before [onopen]. *)
Theorem onopen_resets_backoff (id id' : nat) (now now' : Z) (h : Hook)
  (He : enabled h = true) :
  let h1 := onopen id now h in
  let h2 := onclose id' now' h1 in
  isConnected (store h1) = true /\ retryCount h1 = 0%nat /\
  retryTimeoutRef h2 = Some (next_id h) /\
  timers h2 = timers h ++ [(next_id h, 1000%Z)].
Proof.
  cbv zeta. unfold onclose. simpl. rewrite He. simpl. repeat split.
Qed.

Lemma onopen_resets_backoff_witness :
  enabled (hook_with_count 3) = true /\
  timers (onclose 0 0 (onopen 0 0 (hook_with_count 3))) = [(0%nat, 1000%Z)].
Proof.
  split; [reflexivity|].
  exact (proj2 (proj2 (proj2 (onopen_resets_backoff 0 0 0 0 (hook_with_count 3) eq_refl)))).
Defined.

(** [connect()] only refuses when the current socket is OPEN: a second call
    while the first socket is still CONNECTING creates another socket and
    overwrites [wsRef], leaving the first one open-ended and out of reach of
    [disconnect()]: after [disconnect()] the first socket is still
    CONNECTING and no ref holds it. *)
Theorem connect_while_connecting (now now' now'' : Z) (h : Hook)
  (He : enabled h = true) (Ho : is_open h = false)
  (Hids : forall i s, In (i, s) (sockets h) -> (i < next_id h)%nat) :
  let h2 := connect true now' (connect true now h) in
  let h3 := disconnect now'' h2 in
  sockets h2 = sockets h ++ [(next_id h, CONNECTING); (S (next_id h), CONNECTING)] /\
  wsRef h2 = Some (S (next_id h)) /\
  sock_state (next_id h) (sockets h2) = Some CONNECTING /\
  wsRef h3 = None /\
  sock_state (next_id h) (sockets h3) = Some CONNECTING.
Proof.
  cbv zeta.
  assert (E1 : connect true now h =
    mkHook (url h) (enabled h) (Some (next_id h)) (sockets h ++ [(next_id h, CONNECTING)])
      (retryTimeoutRef h) (timers h) (retryCount h) (S (next_id h)) (store h))
    by (unfold connect; rewrite He, Ho; reflexivity).
  assert (A : sockets (connect true now' (connect true now h)) =
                sockets h ++ [(next_id h, CONNECTING); (S (next_id h), CONNECTING)] /\
              wsRef (connect true now' (connect true now h)) = Some (S (next_id h))).
  { rewrite E1. unfold connect, is_open. simpl. rewrite He.
    rewrite (sock_state_app_fresh _ _ _ Hids). simpl.
    rewrite <- app_assoc. simpl. split; reflexivity. }
  destruct A as [A1 A2].
  assert (A3 : sock_state (next_id h) (sockets (connect true now' (connect true now h))) =
               Some CONNECTING).
  { rewrite A1.
    replace ((next_id h, CONNECTING) :: [(S (next_id h), CONNECTING)])
      with ([(next_id h, CONNECTING)] ++ [(S (next_id h), CONNECTING)]) by reflexivity.
    rewrite app_assoc.
    clear -Hids. induction (sockets h) as [|[i s] l IH]; simpl.
    - rewrite Nat.eqb_refl. reflexivity.
    - destruct (Nat.eqb_spec i (next_id h)) as [E|_].
      + specialize (Hids i s (or_introl eq_refl)). lia.
      + apply IH. intros i' s' Hin. exact (Hids i' s' (or_intror Hin)). }
  split; [exact A1|split; [exact A2|split; [exact A3|]]].
  revert A2 A3. generalize (connect true now' (connect true now h)). intros h2 A2 A3.
  unfold disconnect. rewrite A2.
  destruct (retryTimeoutRef h2); cbn [wsRef sockets]; (split; [reflexivity|]);
    unfold close_sock; destruct (sock_state (S (next_id h)) (sockets h2)) as [[]|];
    rewrite ?sock_state_set_other by lia; exact A3.
Qed.

Lemma connect_while_connecting_witness :
  enabled (hook_with_count 0) = true /\ is_open (hook_with_count 0) = false /\
  sock_state 0 (sockets (disconnect 0 (connect true 0 (connect true 0 (hook_with_count 0))))) =
    Some CONNECTING.
Proof.
  split; [reflexivity|split; [reflexivity|]].
  exact (proj2 (proj2 (proj2 (proj2 (connect_while_connecting 0 0 0 (hook_with_count 0) eq_refl eq_refl
                  (fun i s (H : In (i, s) []) => match H with end)))))).
Defined.

(** [disconnect()] on an enabled hook does not stop reconnection: the
    [onclose] of the socket it closed (retry counter below 5) schedules a
    reconnect timer, and when it fires [connect()] creates a new socket. *)
Theorem disconnect_then_close_reconnects (id : nat) (now now' now'' : Z) (h : Hook)
  (He : enabled h = true) (Hn : (retryCount h < 5)%nat) :
  let h1 := onclose id now' (disconnect now h) in
  let h2 := retry_fire (next_id h) true now'' h1 in
  retryTimeoutRef h1 = Some (next_id h) /\
  In (next_id h, retry_delay (retryCount h)) (timers h1) /\
  sockets h2 = sockets h1 ++ [(S (next_id h), CONNECTING)] /\
  wsRef h2 = Some (S (next_id h)).
Proof.
  cbv zeta.
  assert (Hd : enabled (disconnect now h) = true /\ wsRef (disconnect now h) = None /\
               retryCount (disconnect now h) = retryCount h /\
               next_id (disconnect now h) = next_id h).
  { unfold disconnect. destruct (retryTimeoutRef h), (wsRef h); simpl; auto. }
  destruct Hd as (D1 & D2 & D3 & D4).
  assert (Hn' : (retryCount (disconnect now h) < 5)%nat) by (rewrite D3; exact Hn).
  destruct (onclose_sched id now' _ D1 Hn') as (S1 & S2 & _).
  destruct (onclose_frame id now' (disconnect now h)) as (F1 & F2 & F3 & F4).
  rewrite D4 in S1. rewrite D3, D4 in S2.
  split; [exact S1|split].
  - rewrite S2. apply in_or_app. right. left. reflexivity.
  - unfold retry_fire, connect, is_open. simpl.
    rewrite F1, F2, D1, D2. simpl.
    unfold onclose. rewrite D1, D3. destruct (Nat.ltb_spec (retryCount h) 5); [|lia].
    simpl. rewrite D4. split; reflexivity.
Qed.

Lemma disconnect_then_close_reconnects_witness :
  let h := connect true 0 (hook_with_count 0) in
  enabled h = true /\ (retryCount h < 5)%nat /\
  wsRef (retry_fire (next_id h) true 0 (onclose 0 0 (disconnect 0 h))) = Some 2%nat.
Proof.
  cbv zeta. split; [reflexivity|split; [cbv; lia|]].
  exact (proj2 (proj2 (proj2 (disconnect_then_close_reconnects 0 0 0 0
          (connect true 0 (hook_with_count 0)) eq_refl ltac:(cbv; lia))))).
Defined.

End ConnExtra.

Module SimExtra.
Import Types Sim SimSpec ExtraDefs SimProofs.
Local Open Scope list_scope.



(** In every session, in any number type (doubles included) and whatever the
    tick times: the apogee latch is set exactly when an apogee packet has
    been emitted; apogee is emitted at most once; and every drogue-deploy or
    main-deploy packet comes after an apogee packet. *)
Theorem apogee_latch_discipline {A : Type} `{Num A} (evs : list event) :
  let w := run evs (session_start (A:=A)) in
  (apogeeReached w = true <-> In Apogee (emitted w)) /\
  (forall pre post, emitted w = pre ++ Apogee :: post -> ~ In Apogee post) /\
  (forall pre p post, emitted w = pre ++ p :: post ->
     p = DrogueDeploy \/ p = MainDeploy -> In Apogee pre).
Proof.
  intros w.
  assert (I : LatchInv w) by (apply run_latch; split; reflexivity).
  destruct I as [Ha Hok].
  split; [rewrite Ha; apply has_apogee_In|split].
  - intros pre post E. rewrite E, apogee_ok_app in Hok.
    apply andb_prop in Hok as [_ Hok]. cbn [apogee_ok orb] in Hok.
    apply andb_prop in Hok as [Hn Hok].
    apply negb_true_iff in Hn. cbn [negb] in Hn. exact (apogee_ok_seen post Hok).
  - intros pre p post E Hp. rewrite E, apogee_ok_app in Hok.
    apply andb_prop in Hok as [_ Hok]. cbn [orb] in Hok. apply has_apogee_In.
    destruct Hp as [->| ->]; cbn [apogee_ok] in Hok; apply andb_prop in Hok as [Hs _];
      exact Hs.
Qed.

(** In every session the first interval tick only starts the clock: the
    number of packets emitted is at most the number of ticks minus one. *)
Theorem packets_per_tick {A : Type} `{Num A} (evs : list event) :
  (List.length (emitted (run evs (session_start (A:=A)))) <= List.length (tick_times evs) - 1)%nat.
Proof.
  assert (I : CountInv 0 (session_start (A:=A))) by (split; [reflexivity|intros E; contradiction E; reflexivity]).
  destruct (run_count evs 0 _ I) as [I0 I1]. simpl in I1.
  destruct (Z.eqb_spec (t0 (run evs (session_start (A:=A)))) 0) as [E|E].
  - rewrite (I0 E). simpl. lia.
  - specialize (I1 E). lia.
Qed.

(** After [stopSimulation()] no event emits a packet or moves the state: the
    interval stays cleared and the connected flag false, also when a pending
    post-landing callback runs. *)
Theorem stop_halts {A : Type} `{Num A} (evs : list event) (w : Sim A) :
  let w' := run evs (stopSimulation w) in
  emitted w' = emitted w /\ st w' = st w /\ interval w' = false /\ isConnected w' = false.
Proof. exact (halted_run evs (stopSimulation w) eq_refl eq_refl). Qed.

(** [stopSimulation()] does not cancel a pending post-landing callback: if
    the simulation is stopped and restarted while one is pending, the
    restarted session keeps ticking (interval set, connected) whatever ticks
    come, until that callback fires; it then clears the restarted session's
    interval and sets simulating and connected to false, and no packet
    follows. *)
Theorem stale_grace_stops_restart {A : Type} `{Num A} (w : Sim A) (ns : list Z)
  (Hg : grace w <> []) :
  let w1 := run (map Tick ns) (startSimulation (stopSimulation w)) in
  let w2 := handle w1 GraceFire in
  interval w1 = true /\ isConnected w1 = true /\
  interval w2 = false /\ isSimulating w2 = false /\ isConnected w2 = false /\
  forall evs, emitted (run evs w2) = emitted w1.
Proof.
  cbv zeta.
  assert (K : forall ns (v : Sim A), interval v = true -> isConnected v = true -> grace v <> [] ->
            interval (run (map Tick ns) v) = true /\ isConnected (run (map Tick ns) v) = true /\
            grace (run (map Tick ns) v) <> []).
  { induction ns0 as [|n ns0 IH]; intros v Hi Hc Hv; [split; [exact Hi|split; assumption]|].
    cbn [map run fold_left]. apply IH; cbn [handle]; rewrite Hi;
      destruct (step_emits n v) as (E1 & _ & E3 & C).
    - rewrite E1. exact Hi.
    - rewrite E3. exact Hc.
    - destruct C as [(_ & F & _)|[(_ & _ & _ & F & _)|[(_ & _ & _ & F)|(_ & _ & _ & F)]]];
        rewrite F; [exact Hv|exact Hv|destruct (grace v); discriminate|exact Hv]. }
  destruct (K ns (startSimulation (stopSimulation w)) eq_refl eq_refl Hg) as (K1 & K2 & K3).
  split; [exact K1|split; [exact K2|]]. cbn [handle].
  destruct (grace (run (map Tick ns) (startSimulation (stopSimulation w)))) as [|g gs];
    [contradiction K3; reflexivity|].
  split; [reflexivity|split; [reflexivity|split; [reflexivity|]]].
  intros evs. match goal with |- emitted (run evs ?w2) = _ =>
    exact (proj1 (halted_run evs w2 eq_refl eq_refl)) end.
Qed.

Lemma stale_grace_stops_restart_witness :
  grace (run [Tick 1000%Z; Tick 4600%Z] (session_start (A:=PrimFloat.float))) <> [] /\
  interval (handle (run (map Tick [5000%Z; 5050%Z; 5100%Z]) (startSimulation (stopSimulation
     (run [Tick 1000%Z; Tick 4600%Z] (session_start (A:=PrimFloat.float)))))) GraceFire) = false.
Proof.
  assert (Hg : grace (run [Tick 1000%Z; Tick 4600%Z] (session_start (A:=PrimFloat.float))) <> [])
    by (vm_compute; discriminate).
  split; [exact Hg|].
  exact (proj1 (proj2 (proj2 (stale_grace_stops_restart _ [5000%Z; 5050%Z; 5100%Z] Hg)))).
Defined.

End SimExtra.
